(** * Rive Gargoyle: the control page of [src/main.js]

    [src/main.js] comes in two revisions.  The first one (lines 1-208) binds a
    single view-model enum property, [visemes], to a grid of buttons and to
    the keys 1-9, and reverts it to ["none"] one second after a key press.
    The second one (lines 209-666) binds the inputs of a state machine to
    generated buttons, toggles and sliders, and exports a few helpers.

    The handlers are embedded as functions on an explicit page state: the
    module-level [let] variables, the part of the document the handlers
    touch, and the part of the browser they call into (timers, console).
    Module [Host] has what the browser provides, [Viseme] the first revision,
    [Generic] the second. *)

From Stdlib Require Import Ascii SpecFloat.
From stdpp Require Import base list strings gmap numbers pretty.

Open Scope string_scope.

(** ** What the browser provides *)
Module Host.

(** *** [parseInt] with one argument

    Leading white space goes, then an optional sign, then a [0x]/[0X] prefix
    selects radix 16 (radix 10 otherwise); the longest run of digits of that
    radix is the number and an empty run is [NaN], here [None].  Strings are
    byte strings in UTF-8, so the white space outside ASCII appears as its two
    or three bytes.  The result is kept as an exact integer: the page only
    compares it with 1 and 9, and rounding an integer to a double never moves
    it across either, both being doubles. *)

Definition byte_of (c : ascii) : N := Ascii.N_of_ascii c.

Definition is_ascii_white (c : ascii) : bool :=
  let n := byte_of c in
  ((9 <=? n) && (n <=? 13) || (n =? 32))%N.

(** U+00A0. *)
Definition is_white2 (c1 c2 : ascii) : bool :=
  ((byte_of c1 =? 194) && (byte_of c2 =? 160))%N.

(** U+1680, U+2000..U+200A, U+2028, U+2029, U+202F, U+205F, U+3000, U+FEFF. *)
Definition is_white3 (c1 c2 c3 : ascii) : bool :=
  let '(a, b, c) := (byte_of c1, byte_of c2, byte_of c3) in
  ((a =? 225) && (b =? 154) && (c =? 128)
   || (a =? 226) && (b =? 128)
      && ((128 <=? c) && (c <=? 138) || (c =? 168) || (c =? 169) || (c =? 175))
   || (a =? 226) && (b =? 129) && (c =? 159)
   || (a =? 227) && (b =? 128) && (c =? 128)
   || (a =? 239) && (b =? 187) && (c =? 191))%N.

Fixpoint trimStart (s : string) : string :=
  match s with
  | EmptyString => s
  | String c1 s1 =>
      if is_ascii_white c1 then trimStart s1
      else
        match s1 with
        | EmptyString => s
        | String c2 s2 =>
            if is_white2 c1 c2 then trimStart s2
            else
              match s2 with
              | EmptyString => s
              | String c3 s3 =>
                  if is_white3 c1 c2 c3 then trimStart s3 else s
              end
        end
  end.

(** The value of [c] as a digit of radix [r], for [r] 10 or 16. *)
Definition digit_of (r : Z) (c : ascii) : option Z :=
  let n := Z.of_N (byte_of c) in
  let d :=
    (if (48 <=? n) && (n <=? 57) then Some (n - 48)
     else if (97 <=? n) && (n <=? 102) then Some (n - 87)
     else if (65 <=? n) && (n <=? 70) then Some (n - 55)
     else None)%Z in
  match d with
  | Some v => if (v <? r)%Z then Some v else None
  | None => None
  end.

(** Reads the longest run of digits; [acc] is [None] until a digit is read. *)
Fixpoint digits (r : Z) (acc : option Z) (s : string) : option Z :=
  match s with
  | EmptyString => acc
  | String c s' =>
      match digit_of r c with
      | Some v => digits r (Some (default 0 acc * r + v)%Z) s'
      | None => acc
      end
  end.

Definition strip_sign (s : string) : Z * string :=
  match s with
  | String "-" s' => ((-1)%Z, s')
  | String "+" s' => (1%Z, s')
  | _ => (1%Z, s)
  end.

Definition strip_hex (s : string) : Z * string :=
  match s with
  | String "0" (String "x" s') => (16%Z, s')
  | String "0" (String "X" s') => (16%Z, s')
  | _ => (10%Z, s)
  end.

Definition parseInt (s : string) : option Z :=
  let '(sign, s1) := strip_sign (trimStart s) in
  let '(r, s2) := strip_hex s1 in
  (λ n, sign * n)%Z <$> digits r None s2.

(** A string of characters outside ASCII: in UTF-8 each of their bytes is
    128 or more. *)
Fixpoint non_ascii (s : string) : bool :=
  match s with
  | EmptyString => true
  | String c s' => (128 <=? byte_of c)%N && non_ascii s'
  end.

(** *** [setTimeout] and [clearTimeout]

    A handle is an integer greater than zero, so it is truthy.  A task is its
    handle and the time at which it is due; the page has one callback only,
    [resetVisemeToNone], so a task need not say which one it runs. *)

Record Timers := mkTimers {
  now : N;                            (* milliseconds *)
  pending : list (positive * N);      (* tasks not yet run, oldest first *)
  next_handle : positive;
}.

Definition setTimeout (delay : N) (t : Timers) : positive * Timers :=
  (next_handle t,
   {| now := now t;
      pending := pending t ++ [(next_handle t, (now t + delay)%N)];
      next_handle := Pos.succ (next_handle t) |}).

Definition clearTimeout (h : positive) (t : Timers) : Timers :=
  {| now := now t;
     pending := filter (λ task, task.1 ≠ h) (pending t);
     next_handle := next_handle t |}.

Definition is_due (t : N) (task : positive * N) : Prop := (task.2 ≤ t)%N.

#[export] Instance is_due_dec t task : Decision (is_due t task) :=
  decide (task.2 ≤ t)%N.

(** The clock moves on by [d]: the tasks due by then leave the queue. *)
Definition advance (d : N) (t : Timers) : list (positive * N) * Timers :=
  let t' := (now t + d)%N in
  (filter (is_due t') (pending t),
   {| now := t';
      pending := filter (λ task, ¬ is_due t' task) (pending t);
      next_handle := next_handle t |}).

(** *** The [.placeholder-text] element, if the page has one *)
Record Placeholder := mkPlaceholder {
  ph_innerHTML : string;
  ph_display : string;                (* [style.display] *)
  ph_color : string;                  (* [style.color] *)
}.

(** *** [console] *)
Inductive LogEntry :=
  | LogError (msg detail : string)
  | LogWarn (msg : string)
  | LogInfo (msg : string).

(** [String.prototype.toLowerCase].  The page compares the result with the
    lower-cased ["phonemes"] only; no character outside ASCII lower-cases to
    one of its letters, so lower-casing the ASCII letters decides the same
    comparison. *)
Definition lower_ascii (c : ascii) : ascii :=
  let n := byte_of c in
  if ((65 <=? n) && (n <=? 90))%N then Ascii.ascii_of_N (n + 32) else c.

Fixpoint toLowerCase (s : string) : string :=
  match s with
  | EmptyString => EmptyString
  | String c s' => String (lower_ascii c) (toLowerCase s')
  end.

(** *** [innerHTML]: the fragment parser, in part

    What an element holds once a string has been assigned to its [innerHTML]:
    the tokenizer of the HTML standard (data, tag and attribute states) and
    the tree construction of the in-body insertion mode, for the context
    elements the scripts assign to ([div], [button], [label]).  The parts left
    out answer [None]: character references ([&]), NUL, carriage return (the
    newline normalisation), comments, doctypes, and every tag whose name is
    made of letters and digits only and is not [span] (such a name may be one
    the tree construction treats in its own way).  A tag name with another
    character in it, as in [<b</span>], names an ordinary element. *)

#[local] Unset Elimination Schemes.
Inductive Node :=
  | Text (t : string)
  | Elem (name : string) (attrs : list (string * string)) (kids : list Node).
#[local] Set Elimination Schemes.

(** An open element: its children so far and the run of text being added. *)
Record Frame := mkFrame {
  fr_name : string;
  fr_attrs : list (string * string);
  fr_kids : list Node;
  fr_text : string;
}.

Definition flush (f : Frame) : list Node :=
  match fr_text f with
  | EmptyString => fr_kids f
  | t => (fr_kids f ++ [Text t])%list
  end.

Definition close_frame (f : Frame) : Node :=
  Elem (fr_name f) (fr_attrs f) (flush f).

Definition add_kid (n : Node) (f : Frame) : Frame :=
  mkFrame (fr_name f) (fr_attrs f) (flush f ++ [n])%list EmptyString.

Definition snoc (s : string) (c : ascii) : string := s +:+ String c EmptyString.

Definition add_char (c : ascii) (f : Frame) : Frame :=
  mkFrame (fr_name f) (fr_attrs f) (fr_kids f) (snoc (fr_text f) c).

Inductive Tok :=
  | Data | TagOpen | EndTagOpen | TagName
  | BeforeAttrName | AttrName | AfterAttrName | BeforeAttrValue
  | AttrValueDQ | AttrValueSQ | AttrValueUnq | AfterAttrValueQ | SelfClosing.

(** The tag token being read; [t_cur] is the attribute being read. *)
Record Tag := mkTag {
  t_end : bool;
  t_name : string;
  t_attrs : list (string * string);
  t_cur : option (string * string);
}.

(** The stack of open elements, innermost first; the last frame stands for the
    element assigned to. *)
Record Parser := mkParser {
  p_tok : Tok;
  p_tag : Tag;
  p_stack : list Frame;
}.

Definition set_tok (t : Tok) (p : Parser) : Parser :=
  mkParser t (p_tag p) (p_stack p).
Definition set_tag (t : Tag) (p : Parser) : Parser :=
  mkParser (p_tok p) t (p_stack p).

Definition is_html_space (c : ascii) : bool :=
  let n := byte_of c in ((n =? 9) || (n =? 10) || (n =? 12) || (n =? 32))%N.
Definition is_alpha (c : ascii) : bool :=
  let n := byte_of c in
  ((65 <=? n) && (n <=? 90) || (97 <=? n) && (n <=? 122))%N.
Definition is_alnum (c : ascii) : bool :=
  let n := byte_of c in is_alpha c || ((48 <=? n) && (n <=? 57))%N.
Definition is_char (c : ascii) (n : N) : bool := (byte_of c =? n)%N.

Fixpoint all_alnum (s : string) : bool :=
  match s with
  | EmptyString => true
  | String c s' => is_alnum c && all_alnum s'
  end.

(** The tag names the model follows. *)
Definition ordinary (name : string) : bool :=
  String.eqb name "span" || negb (all_alnum name).

(** Leaving an attribute: it is kept unless its name is there already. *)
Definition commit (t : Tag) : Tag :=
  match t_cur t with
  | Some (n, v) =>
      mkTag (t_end t) (t_name t)
        (if existsb (λ a, String.eqb a.1 n) (t_attrs t) then t_attrs t
         else (t_attrs t ++ [(n, v)])%list)
        None
  | None => t
  end.

Definition new_attr (n : string) (t : Tag) : Tag :=
  let t := commit t in
  mkTag (t_end t) (t_name t) (t_attrs t) (Some (n, EmptyString)).

Definition to_attr_name (c : ascii) (t : Tag) : Tag :=
  mkTag (t_end t) (t_name t) (t_attrs t)
    ((λ a, (snoc a.1 (lower_ascii c), a.2)) <$> t_cur t).
Definition to_attr_value (c : ascii) (t : Tag) : Tag :=
  mkTag (t_end t) (t_name t) (t_attrs t)
    ((λ a, (a.1, snoc a.2 c)) <$> t_cur t).
Definition to_tag_name (c : ascii) (t : Tag) : Tag :=
  mkTag (t_end t) (snoc (t_name t) (lower_ascii c)) (t_attrs t) (t_cur t).

Definition emit_char (c : ascii) (p : Parser) : option Parser :=
  match p_stack p with
  | f :: below => Some (mkParser (p_tok p) (p_tag p) (add_char c f :: below))
  | [] => None
  end.

(** An element of that name is open (the last frame is not an element). *)
Fixpoint is_open (name : string) (st : list Frame) : bool :=
  match st with
  | f :: (_ :: _) as below => String.eqb (fr_name f) name || is_open name below
  | _ => false
  end.

(** Closes the open elements down to the innermost one called [name]. *)
Fixpoint pop_to (name : string) (st : list Frame) : list Frame :=
  match st with
  | f :: below =>
      match below with
      | g :: rest =>
          let st' := add_kid (close_frame f) g :: rest in
          if String.eqb (fr_name f) name then st'
          else
            match pop_to name below with
            | g' :: rest' => add_kid (close_frame f) g' :: rest'
            | [] => st
            end
      | [] => st
      end
  | [] => st
  end.

(** The tag token is complete: the tree construction acts on it. *)
Definition emit_tag (p : Parser) : option Parser :=
  let t := commit (p_tag p) in
  if negb (ordinary (t_name t)) then None
  else if t_end t then
    Some (mkParser Data t
            (if is_open (t_name t) (p_stack p)
             then pop_to (t_name t) (p_stack p) else p_stack p))
  else
    Some (mkParser Data t
            (mkFrame (t_name t) (t_attrs t) [] EmptyString :: p_stack p)).

Definition data_char (c : ascii) (p : Parser) : option Parser :=
  if is_char c 38 then None
  else if is_char c 60 then Some (set_tok TagOpen p)
  else emit_char c (set_tok Data p).

Definition tag_name_char (c : ascii) (p : Parser) : option Parser :=
  if is_html_space c then Some (set_tok BeforeAttrName p)
  else if is_char c 47 then Some (set_tok SelfClosing p)
  else if is_char c 62 then emit_tag p
  else Some (set_tok TagName (set_tag (to_tag_name c (p_tag p)) p)).

Definition attr_name_char (c : ascii) (p : Parser) : option Parser :=
  if is_char c 61 then Some (set_tok BeforeAttrValue p)
  else Some (set_tok AttrName (set_tag (to_attr_name c (p_tag p)) p)).

Definition after_attr_name (c : ascii) (p : Parser) : option Parser :=
  if is_html_space c then Some (set_tok AfterAttrName p)
  else if is_char c 47 then Some (set_tok SelfClosing p)
  else if is_char c 61 then Some (set_tok BeforeAttrValue p)
  else if is_char c 62 then emit_tag p
  else attr_name_char c (set_tag (new_attr EmptyString (p_tag p)) p).

Definition in_attr_name (c : ascii) (p : Parser) : option Parser :=
  if is_html_space c || is_char c 47 || is_char c 62
  then after_attr_name c p
  else attr_name_char c p.

Definition before_attr_name (c : ascii) (p : Parser) : option Parser :=
  if is_html_space c then Some (set_tok BeforeAttrName p)
  else if is_char c 47 || is_char c 62 then after_attr_name c p
  else if is_char c 61
  then Some (set_tok AttrName (set_tag (new_attr "=" (p_tag p)) p))
  else attr_name_char c (set_tag (new_attr EmptyString (p_tag p)) p).

Definition attr_value_unq (c : ascii) (p : Parser) : option Parser :=
  if is_html_space c then Some (set_tok BeforeAttrName p)
  else if is_char c 38 then None
  else if is_char c 62 then emit_tag p
  else Some (set_tok AttrValueUnq (set_tag (to_attr_value c (p_tag p)) p)).

Definition before_attr_value (c : ascii) (p : Parser) : option Parser :=
  if is_html_space c then Some (set_tok BeforeAttrValue p)
  else if is_char c 34 then Some (set_tok AttrValueDQ p)
  else if is_char c 39 then Some (set_tok AttrValueSQ p)
  else if is_char c 62 then emit_tag p
  else attr_value_unq c p.

Definition attr_value_quoted (quote : N) (st : Tok) (c : ascii) (p : Parser)
  : option Parser :=
  if is_char c quote then Some (set_tok AfterAttrValueQ p)
  else if is_char c 38 then None
  else Some (set_tok st (set_tag (to_attr_value c (p_tag p)) p)).

Definition after_attr_value_q (c : ascii) (p : Parser) : option Parser :=
  if is_html_space c then Some (set_tok BeforeAttrName p)
  else if is_char c 47 then Some (set_tok SelfClosing p)
  else if is_char c 62 then emit_tag p
  else before_attr_name c p.

Definition self_closing (c : ascii) (p : Parser) : option Parser :=
  if is_char c 62 then emit_tag p else before_attr_name c p.

Definition start_tag (is_end : bool) (p : Parser) : Parser :=
  set_tag (mkTag is_end EmptyString [] None) p.

Definition tag_open (c : ascii) (p : Parser) : option Parser :=
  if is_char c 33 || is_char c 63 then None
  else if is_char c 47 then Some (set_tok EndTagOpen p)
  else if is_alpha c then tag_name_char c (start_tag false p)
  else emit_char "<" p ≫= data_char c.

Definition end_tag_open (c : ascii) (p : Parser) : option Parser :=
  if is_alpha c then tag_name_char c (start_tag true p)
  else if is_char c 62 then Some (set_tok Data p)
  else None.

Definition html_step (p : Parser) (c : ascii) : option Parser :=
  if is_char c 0 || is_char c 13 then None
  else
    match p_tok p with
    | Data => data_char c p
    | TagOpen => tag_open c p
    | EndTagOpen => end_tag_open c p
    | TagName => tag_name_char c p
    | BeforeAttrName => before_attr_name c p
    | AttrName => in_attr_name c p
    | AfterAttrName => after_attr_name c p
    | BeforeAttrValue => before_attr_value c p
    | AttrValueDQ => attr_value_quoted 34 AttrValueDQ c p
    | AttrValueSQ => attr_value_quoted 39 AttrValueSQ c p
    | AttrValueUnq => attr_value_unq c p
    | AfterAttrValueQ => after_attr_value_q c p
    | SelfClosing => self_closing c p
    end.

Fixpoint html_run (p : Parser) (s : string) : option Parser :=
  match s with
  | EmptyString => Some p
  | String c s' =>
      match html_step p c with
      | Some p' => html_run p' s'
      | None => None
      end
  end.

(** The end of the string: text cut short is kept, a tag cut short is
    dropped, and every open element is closed. *)
Fixpoint close_into (carry : option Node) (st : list Frame) : list Node :=
  match st with
  | [] => []
  | f :: below =>
      let f' := match carry with Some n => add_kid n f | None => f end in
      match below with
      | [] => flush f'
      | _ => close_into (Some (close_frame f')) below
      end
  end.

Definition close_all (st : list Frame) : list Node := close_into None st.

Definition html_end (p : Parser) : option (list Node) :=
  let p' :=
    match p_tok p with
    | TagOpen => emit_char "<" p
    | EndTagOpen => emit_char "<" p ≫= emit_char "/"
    | _ => Some p
    end in
  (λ p, close_all (p_stack p)) <$> p'.

Definition html_start : Parser :=
  mkParser Data (mkTag false EmptyString [] None)
    [mkFrame EmptyString [] [] EmptyString].

Definition parse_fragment (html : string) : option (list Node) :=
  html_run html_start html ≫= html_end.

(** [textContent]. *)
Fixpoint text_content (n : Node) : string :=
  match n with
  | Text t => t
  | Elem _ _ kids =>
      (fix go (l : list Node) : string :=
         match l with
         | [] => EmptyString
         | k :: l' => text_content k +:+ go l'
         end) kids
  end.

(** The class names of a [class] attribute. *)
Fixpoint class_tokens (cur : string) (s : string) : list string :=
  match s with
  | EmptyString => match cur with EmptyString => [] | _ => [cur] end
  | String c s' =>
      if is_html_space c || is_char c 13
      then match cur with
           | EmptyString => class_tokens EmptyString s'
           | _ => cur :: class_tokens EmptyString s'
           end
      else class_tokens (snoc cur c) s'
  end.

Definition has_class (cls : string) (attrs : list (string * string)) : bool :=
  match List.find (λ a, String.eqb a.1 "class") attrs with
  | Some a => existsb (String.eqb cls) (class_tokens EmptyString a.2)
  | None => false
  end.

(** The first element of class [cls], in tree order. *)
Fixpoint find_class (cls : string) (n : Node) : option Node :=
  match n with
  | Text _ => None
  | Elem _ attrs kids =>
      if has_class cls attrs then Some n
      else
        (fix go (l : list Node) : option Node :=
           match l with
           | [] => None
           | k :: l' =>
               match find_class cls k with
               | Some x => Some x
               | None => go l'
               end
           end) kids
  end.

Fixpoint find_class_in (cls : string) (l : list Node) : option Node :=
  match l with
  | [] => None
  | k :: l' =>
      match find_class cls k with
      | Some x => Some x
      | None => find_class_in cls l'
      end
  end.

(** The text shown by the first element of class [cls] once [html] has been
    assigned to [innerHTML]. *)
Definition text_in (cls html : string) : option string :=
  parse_fragment html ≫= λ nodes, text_content <$> find_class_in cls nodes.

(** A string that reads as text: it has none of [<], [&], NUL and carriage
    return. *)
Fixpoint is_plain (s : string) : bool :=
  match s with
  | EmptyString => true
  | String c s' =>
      negb (is_char c 60 || is_char c 38 || is_char c 0 || is_char c 13)
      && is_plain s'
  end.





(** *** Numbers

    A number is an IEEE-754 double, kept as the datum it denotes.  A finite
    one stands for [m * 2^e], whether or not [m] and [e] are the canonical
    ones, and is compared and printed as that value. *)

(** The double nearest to [m * 10^e10], ties to even. *)
Definition double_of_decimal (neg : bool) (m : N) (e10 : Z) : spec_float :=
  match m with
  | N0 => S754_zero neg
  | Npos p =>
      if (0 <=? e10)%Z
      then binary_round 53 1024 neg (p * Z.to_pos (10 ^ e10)) 0
      else SFdiv 53 1024 (S754_finite neg p 0)
             (S754_finite false (Z.to_pos (10 ^ (- e10))) 0)
  end.






(** [floor (m * 2^e * k)] for a factor [k]. *)
Definition scaled_floor (k : Z) (m : positive) (e : Z) : Z :=
  if (0 <=? e)%Z then (k * Z.pos m * 2 ^ e)%Z
  else (k * Z.pos m / 2 ^ (- e))%Z.

(** [m * 2^e] against the integer [k]. *)
Definition compare_int (m : positive) (e : Z) (k : Z) : comparison :=
  if (0 <=? e)%Z then (Z.pos m * 2 ^ e ?= k)%Z
  else (Z.pos m ?= k * 2 ^ (- e))%Z.


(** The same number, whatever the mantissa and exponent chosen. *)
Definition same_number (x y : spec_float) : bool :=
  match x, y with
  | S754_zero _, S754_zero _ => true
  | S754_finite s1 m1 e1, S754_finite s2 m2 e2 =>
      Bool.eqb s1 s2
      && (let e := Z.min e1 e2 in
          Z.pos m1 * 2 ^ (e1 - e) =? Z.pos m2 * 2 ^ (e2 - e))%Z
  | S754_infinity s1, S754_infinity s2 => Bool.eqb s1 s2
  | _, _ => false
  end.

#[export] Instance spec_float_eq_dec : EqDecision spec_float.
Proof. solve_decision. Defined.

(** The double nearest to [t / 10]. *)
Definition tenths (t : N) : spec_float := double_of_decimal false t (-1).

(** *** The range input

    The position a range input with the attributes [min], [max] and [step]
    takes when the number [x] is assigned to its [value]: the number goes
    through [ToString] and the sanitisation of the input.  What is not a
    finite number is no valid value, and the input takes its default, half way
    between the bounds; a number below [min] gives [min], one above [max]
    gives [max], and a multiple of the step between them is kept.  Multiples
    are taken in decimal, as the browsers do: a number is one when it is the
    double nearest to some [t / 10].  The rounding to the step of any other
    number in range is left out ([None]), as is any other choice of the
    attributes than that of lines 543-545. *)
Definition range_position (min max step : string) (x : spec_float)
  : option spec_float :=
  if String.eqb min "0" && String.eqb max "100" && String.eqb step "0.1" then
    match x with
    | S754_nan | S754_infinity _ => Some (tenths 500)
    | S754_zero _ | S754_finite true _ _ => Some (S754_zero false)
    | S754_finite false m e =>
        match compare_int m e 100 with
        | Gt => Some (tenths 1000)
        | _ =>
            let t := Z.to_N (scaled_floor 10 m e) in
            if same_number x (tenths t) then Some (tenths t)
            else if same_number x (tenths (t + 1)) then Some (tenths (t + 1))
            else None
        end
    end
  else None.


End Host.

(** ** First revision: the viseme enum and its timed reset (lines 1-208) *)
Module Viseme.
Import Host.

(** *** CONFIG (lines 8-19) *)
Definition phonemesEnumName : string := "phonemes".
Definition visemesPropertyName : string := "visemes".
Definition RESET_DELAY_MS : N := 1000.

(** *** The loaded file, as the runtime shows it to the page *)

(** An entry of [riveInstance.enums()]. *)
Record DataEnum := mkDataEnum {
  enum_name : string;
  enum_values : option (list string);      (* [None]: no [values] *)
}.

(** A view-model instance is its enum slots: path to current value.
    [viewModelInstance.enum(path)] is a handle on the slot at [path], or null;
    a handle is modelled by its path, and every handle on a slot reads and
    writes that one slot. *)
Record Rive := mkRive {
  rive_viewModelInstance : option (gmap string string);
  rive_enums : option (list DataEnum);     (* [None]: not an array *)
}.

(** *** The page state *)

(** The module-level variables (lines 22-26).  [riveInstance] is [true] once
    constructed; what it exposes after loading is the [Rive] handed to
    [onLoad]. *)
Record Vars := mkVars {
  riveInstance : bool;
  viewModelInstance : option (gmap string string);
  visemeProperty : option string;
  currentEnumValues : list string;
  resetTimer : option positive;
}.

(** A button of the grid: what lines 133-144 give it, and the property its
    click listener closes over.  [btn_text] and [key_badge] are what the
    script puts into the markup it assigns to the [innerHTML] of the button
    ([button_html]); what the button then shows is what the parser makes of
    that markup ([text_in]), which is the label when the label reads as text
    ([is_plain]). *)
Record Button := mkButton {
  dataset_value : string;
  key_badge : option nat;
  btn_text : string;
  active : bool;
  target : string;
}.

(** The part of the document the handlers read and write.  [readouts] maps
    the id of a [current-...] element to the string last assigned to its
    [innerHTML]; what the element shows is what the parser makes of that
    string ([shown_value]).  [enum_buttons] are the elements of class
    [enum-button], which are the buttons made for the labels as long as no
    label and no value shown brings markup of its own (for the labels,
    [plain_labels]). *)
Record Document := mkDocument {
  canvas : bool;
  placeholder : option Placeholder;
  enums_section : bool;
  readouts : gmap string string;
  enum_buttons : list Button;
  numbers_display : string;
  triggers_display : string;
  booleans_display : string;
}.

Record Browser := mkBrowser {
  timers : Timers;
  console : list LogEntry;
  asset_requests : nat;                    (* [new Rive] calls so far *)
}.

Record State := mkState {
  vars : Vars;
  doc : Document;
  env : Browser;
}.

Definition on_vars (f : Vars → Vars) (s : State) : State :=
  mkState (f (vars s)) (doc s) (env s).
Definition on_doc (f : Document → Document) (s : State) : State :=
  mkState (vars s) (f (doc s)) (env s).
Definition on_env (f : Browser → Browser) (s : State) : State :=
  mkState (vars s) (doc s) (f (env s)).

Definition set_riveInstance (b : bool) (v : Vars) : Vars :=
  mkVars b (viewModelInstance v) (visemeProperty v) (currentEnumValues v)
    (resetTimer v).
Definition set_viewModelInstance (m : option (gmap string string)) (v : Vars)
  : Vars :=
  mkVars (riveInstance v) m (visemeProperty v) (currentEnumValues v)
    (resetTimer v).
Definition set_visemeProperty (p : option string) (v : Vars) : Vars :=
  mkVars (riveInstance v) (viewModelInstance v) p (currentEnumValues v)
    (resetTimer v).
Definition set_currentEnumValues (l : list string) (v : Vars) : Vars :=
  mkVars (riveInstance v) (viewModelInstance v) (visemeProperty v) l
    (resetTimer v).
Definition set_resetTimer (h : option positive) (v : Vars) : Vars :=
  mkVars (riveInstance v) (viewModelInstance v) (visemeProperty v)
    (currentEnumValues v) h.

Definition set_placeholder (p : option Placeholder) (d : Document) : Document :=
  mkDocument (canvas d) p (enums_section d) (readouts d) (enum_buttons d)
    (numbers_display d) (triggers_display d) (booleans_display d).
Definition set_enums_section (b : bool) (d : Document) : Document :=
  mkDocument (canvas d) (placeholder d) b (readouts d) (enum_buttons d)
    (numbers_display d) (triggers_display d) (booleans_display d).
Definition set_readouts (r : gmap string string) (d : Document) : Document :=
  mkDocument (canvas d) (placeholder d) (enums_section d) r (enum_buttons d)
    (numbers_display d) (triggers_display d) (booleans_display d).
Definition set_enum_buttons (l : list Button) (d : Document) : Document :=
  mkDocument (canvas d) (placeholder d) (enums_section d) (readouts d) l
    (numbers_display d) (triggers_display d) (booleans_display d).
Definition set_section_displays (n t b : string) (d : Document) : Document :=
  mkDocument (canvas d) (placeholder d) (enums_section d) (readouts d)
    (enum_buttons d) n t b.

Definition set_timers (t : Timers) (b : Browser) : Browser :=
  mkBrowser t (console b) (asset_requests b).
Definition log (e : LogEntry) (b : Browser) : Browser :=
  mkBrowser (timers b) (console b ++ [e]) (asset_requests b).
Definition request_asset (b : Browser) : Browser :=
  mkBrowser (timers b) (console b) (S (asset_requests b)).

Definition set_active (a : bool) (b : Button) : Button :=
  mkButton (dataset_value b) (key_badge b) (btn_text b) a (target b).

(** The static page: [index.html] is not part of the sources, so what it
    holds of the nodes the script looks up is left open. *)
Record Page := mkPage {
  page_canvas : bool;
  page_placeholder : option Placeholder;
  page_enums_section : bool;
}.

(** The state when the script has been evaluated, at time [t0]. *)
Definition boot (page : Page) (t0 : N) : State :=
  {| vars := mkVars false None None [] None;
     doc := mkDocument (page_canvas page) (page_placeholder page)
              (page_enums_section page) ∅ [] EmptyString EmptyString
              EmptyString;
     env := mkBrowser (mkTimers t0 [] 1) [] 0 |}.

(** *** Reading and writing the enum property *)

(** [enumProperty.value = v] for the handle [p]. *)
Definition write_enum (p v : string) (s : State) : State :=
  on_vars (λ vs, set_viewModelInstance (<[p := v]> <$> viewModelInstance vs) vs)
    s.

(** [enumProperty.value] for the handle [p]. *)
Definition read_enum (p : string) (s : State) : option string :=
  viewModelInstance (vars s) ≫= λ vm, vm !! p.

(** [visemeProperty.value], when [visemeProperty] is not null. *)
Definition viseme_value (s : State) : option string :=
  visemeProperty (vars s) ≫= λ p, read_enum p s.

(** *** UI helpers (lines 161-179) *)

Definition quot : string := String (ascii_of_N 34) EmptyString.

(** The markup of lines 125 and 164 around [value], which goes into it as it
    is, unescaped. *)
Definition current_html (value : string) : string :=
  "<span class=" +:+ quot +:+ "current-label" +:+ quot +:+ ">Current:</span> "
  +:+ "<span class=" +:+ quot +:+ "current-value" +:+ quot +:+ ">"
  +:+ value +:+ "</span>".

(** Lines 161-166: the assignment to [innerHTML] is kept as the string
    assigned. *)
Definition updateCurrentDisplay (name value : string) (s : State) : State :=
  let id := "current-" +:+ name in
  match readouts (doc s) !! id with
  | Some _ =>
      on_doc (λ d, set_readouts (<[id := current_html value]> (readouts d)) d) s
  | None => s
  end.

Definition updateVisemeUI (value : string) (s : State) : State :=
  on_doc (λ d,
    set_enum_buttons
      ((λ btn, set_active (bool_decide (dataset_value btn = value)) btn)
         <$> enum_buttons d) d)
    (updateCurrentDisplay "visemes" value s).

Definition resetVisemeToNone (s : State) : State :=
  match visemeProperty (vars s) with
  | Some p =>
      if bool_decide ("none" ∈ currentEnumValues (vars s))
      then updateVisemeUI "none" (write_enum p "none" s)
      else s
  | None => s
  end.

(** *** Building the enum control (lines 94-158) *)

(** Lines 111-118: the values of the file enum called [enumName], whatever
    the case of its letters; none when there is no such enum. *)
Definition lookup_enum_values (enumName : string) (file : Rive) : list string :=
  match rive_enums file with
  | Some fileEnums =>
      match
        List.find
          (λ e, String.eqb (toLowerCase (enum_name e)) (toLowerCase enumName))
          fileEnums
      with
      | Some matchingEnum => default [] (enum_values matchingEnum)
      | None => []
      end
  | None => []
  end.

(** [x || 'none'] for a string [x]. *)
Definition or_none (x : string) : string :=
  match x with EmptyString => "none" | _ => x end.

(** Lines 132-144: the button made for [value] at position [index].  The
    label is kept twice: as [dataset.value], set through the DOM, and as the
    string put unescaped into the markup of the button. *)
Definition make_button (enumProperty current : string) (index : nat)
    (value : string) : Button :=
  {| dataset_value := value;
     key_badge := if (index <? 9)%nat then Some (index + 1)%nat else None;
     btn_text := value;
     active := bool_decide (current = value);
     target := enumProperty |}.

(** Lines 94-158.  The readout gets its markup as a string (line 125), and
    the grid one button per label. *)
Definition createEnumControl (name enumProperty enumName : string)
    (file : Rive) (s : State) : State :=
  let s := on_doc (set_enums_section true) s in
  let enumValues := lookup_enum_values enumName file in
  let s := on_vars (set_currentEnumValues enumValues) s in
  let current := default EmptyString (read_enum enumProperty s) in
  let s :=
    on_doc (λ d,
      set_readouts
        (<["current-" +:+ name := current_html (or_none current)]> (readouts d))
        d) s in
  on_doc (λ d,
    set_enum_buttons
      (enum_buttons d ++ imap (make_button enumProperty current) enumValues) d)
    s.

(** The click listener of the button at position [j] of the grid (lines
    146-151); a position without a button has nothing to click. *)
Definition click (j : nat) (s : State) : State :=
  match enum_buttons (doc s) !! j with
  | Some button =>
      let value := dataset_value button in
      let s := write_enum (target button) value s in
      let s :=
        on_doc (λ d,
          set_enum_buttons
            (imap (λ k btn, set_active (bool_decide (k = j)) btn)
               (enum_buttons d)) d) s in
      updateCurrentDisplay "visemes" value s
  | None => s
  end.

(** *** Set-up after loading (lines 42-48 and 66-91) *)

Definition hide_placeholder (d : Document) : Document :=
  set_placeholder
    ((λ p, mkPlaceholder (ph_innerHTML p) "none" (ph_color p)) <$> placeholder d)
    d.

(** Lines 74-79: the handle on [visemes], directly or under [viseme/]. *)
Definition find_visemes (vm : gmap string string) : option string :=
  if decide (is_Some (vm !! visemesPropertyName)) then Some visemesPropertyName
  else
    let nested := "viseme/" +:+ visemesPropertyName in
    if decide (is_Some (vm !! nested)) then Some nested else None.

Definition setupViewModelControls (file : Rive) (s : State) : State :=
  match viewModelInstance (vars s) with
  | None => s
  | Some vm =>
      let s := on_doc hide_placeholder s in
      let s := on_vars (set_visemeProperty (find_visemes vm)) s in
      let s :=
        match visemeProperty (vars s) with
        | Some p => createEnumControl "visemes" p phonemesEnumName file s
        | None =>
            on_env (log (LogWarn "visemes property not found on View Model")) s
        end in
      on_doc (set_section_displays "none" "none" "none") s
  end.

(** [initRive] (lines 29-51): without a canvas nothing is constructed. *)
Definition initRive (s : State) : State :=
  if canvas (doc s)
  then on_env request_asset (on_vars (set_riveInstance true) s)
  else s.

(** The [onLoad] callback (lines 42-48).  [resizeCanvas] writes the size of
    the canvas only, which no handler reads. *)
Definition onLoad (file : Rive) (s : State) : State :=
  let s := on_vars (set_viewModelInstance (rive_viewModelInstance file)) s in
  match viewModelInstance (vars s) with
  | Some _ => setupViewModelControls file s
  | None => s
  end.

(** The [onLoadError] callback (line 49). *)
Definition onLoadError (error : string) (s : State) : State :=
  on_env (log (LogError "Error loading Rive file:" error)) s.

(** *** The keydown listener (lines 188-205) *)

(** [event.key] for the key of the digit [i + 1], [i] below 9. *)
Definition digit_key (i : nat) : string :=
  String (ascii_of_nat (49 + i)) EmptyString.

(** [keyNum >= 1 && keyNum <= 9]; both comparisons are false on [NaN]. *)
Definition is_shortcut (keyNum : option Z) : bool :=
  match keyNum with
  | Some n => (1 <=? n)%Z && (n <=? 9)%Z
  | None => false
  end.

(** Lines 192-195. *)
Definition cancelReset (s : State) : State :=
  match resetTimer (vars s) with
  | Some h =>
      on_vars (set_resetTimer None)
        (on_env (λ b, set_timers (clearTimeout h (timers b)) b) s)
  | None => s
  end.

(** Lines 200-201. *)
Definition applyViseme (p value : string) (s : State) : State :=
  updateVisemeUI value (write_enum p value s).

(** Line 202. *)
Definition scheduleReset (s : State) : State :=
  let '(h, t) := setTimeout RESET_DELAY_MS (timers (env s)) in
  on_vars (set_resetTimer (Some h)) (on_env (set_timers t) s).

Definition keydown (key : string) (s : State) : State :=
  let keyNum := parseInt key in
  if is_shortcut keyNum && (0 <? length (currentEnumValues (vars s)))%nat then
    let s := cancelReset s in
    let index := Z.to_nat (default 0%Z keyNum - 1) in
    match currentEnumValues (vars s) !! index, visemeProperty (vars s) with
    | Some value, Some p => scheduleReset (applyViseme p value s)
    | _, _ => s
    end
  else s.

(** *** Time passing *)

(** [d] milliseconds go by: every task due by then runs its callback,
    [resetVisemeToNone], oldest first. *)
Definition elapse (d : N) (s : State) : State :=
  let '(due, t) := advance d (timers (env s)) in
  foldl (λ s _, resetVisemeToNone s) (on_env (set_timers t) s) due.

(** *** Runs of the page *)

Inductive Event :=
  | KeyDown (key : string)
  | Click (j : nat)
  | Elapse (d : N).

Definition step (e : Event) (s : State) : State :=
  match e with
  | KeyDown key => keydown key s
  | Click j => click j s
  | Elapse d => elapse d s
  end.

(** Where the page is in its life: the script evaluated, the asset
    requested, the asset loaded, or no asset to come (no canvas, or the load
    failed).  The runtime calls one of [onLoad] and [onLoadError], once. *)
Inductive Phase := Booted | Loading | Loaded | Stopped.

Inductive reachable : Phase → State → Prop :=
  | reach_boot page t0 :
      reachable Booted (boot page t0)
  | reach_event ph s e :
      reachable ph s → reachable ph (step e s)
  | reach_init s :
      reachable Booted s →
      reachable (if canvas (doc s) then Loading else Stopped) (initRive s)
  | reach_load s file :
      reachable Loading s → reachable Loaded (onLoad file s)
  | reach_load_error s error :
      reachable Loading s → reachable Stopped (onLoadError error s).

(** *** The scenario of the specification *)

Definition demo_page : Page :=
  mkPage true (Some (mkPlaceholder "Loading..." EmptyString EmptyString)) true.

Definition demo_file (labels : list string) : Rive :=
  mkRive (Some {[ "visemes" := "none" ]})
    (Some [mkDataEnum "Phonemes" (Some labels)]).

(** Loaded, with the labels [labels] found. *)
Definition demo (labels : list string) : State :=
  onLoad (demo_file labels) (initRive (boot demo_page 0)).

Definition readout (s : State) : option string :=
  readouts (doc s) !! "current-visemes".

Definition active_values (s : State) : list string :=
  dataset_value <$> filter (λ b, active b = true) (enum_buttons (doc s)).

(** *** Invariants of the runs *)

(** The tasks still to run: at most one, the one [resetTimer] holds, with a
    handle the browser has already handed out. *)
Definition timer_inv (s : State) : Prop :=
  let t := timers (env s) in
  (length (pending t) ≤ 1)%nat
  ∧ Forall (λ task, resetTimer (vars s) = Some task.1
                    ∧ (task.1 < next_handle t)%positive) (pending t).

(** The grid has one button per label, in order, all writing the property
    [visemeProperty] holds; where there are labels the property is bound to a
    slot of the view model and the readout exists. *)
Definition control_inv (s : State) : Prop :=
  dataset_value <$> enum_buttons (doc s) = currentEnumValues (vars s)
  ∧ Forall (λ q, visemeProperty (vars s) = Some q)
      (target <$> enum_buttons (doc s))
  ∧ (currentEnumValues (vars s) ≠ [] →
     ∃ p, visemeProperty (vars s) = Some p
          ∧ is_Some (read_enum p s) ∧ is_Some (readout s)).

(** Before [onLoad] nothing has been built. *)
Definition unloaded (s : State) : Prop :=
  currentEnumValues (vars s) = [] ∧ enum_buttons (doc s) = [].

Definition inv (ph : Phase) (s : State) : Prop :=
  timer_inv s ∧ control_inv s ∧ (ph ≠ Loaded → unloaded s).

(** [s'] has the labels, the bound property and the buttons of [s], up to
    the values held and the marks shown. *)
Definition same_shape (s s' : State) : Prop :=
  currentEnumValues (vars s') = currentEnumValues (vars s)
  ∧ visemeProperty (vars s') = visemeProperty (vars s)
  ∧ dataset_value <$> enum_buttons (doc s')
    = dataset_value <$> enum_buttons (doc s)
  ∧ target <$> enum_buttons (doc s') = target <$> enum_buttons (doc s)
  ∧ (∀ p, is_Some (read_enum p s) → is_Some (read_enum p s'))
  ∧ (is_Some (readout s) → is_Some (readout s')).

(** The step [e] from [s] calls [setTimeout]: handles are handed out in
    order, and by nothing else. *)
Definition schedules (e : Event) (s : State) : Prop :=
  next_handle (timers (env (step e s))) ≠ next_handle (timers (env s)).

(** *** What the page shows *)

(** The text the readout shows, its [innerHTML] being [html]: that of the
    [current-value] span. *)
Definition shown_value (html : string) : option string :=
  text_in "current-value" html.

(** The text the readout shows in the state [s]. *)
Definition readout_text (s : State) : option string :=
  readout s ≫= shown_value.

(** The [innerHTML] lines 139 and 141 assign to a button. *)
Definition button_html (b : Button) : string :=
  match key_badge b with
  | Some n =>
      "<span class=" +:+ quot +:+ "key-badge" +:+ quot +:+ ">" +:+ pretty n
      +:+ "</span>"
  | None => EmptyString
  end
  +:+ "<span class=" +:+ quot +:+ "btn-text" +:+ quot +:+ ">" +:+ btn_text b
  +:+ "</span>".

(** The markup of lines 125 and 164 ahead of the value, and those of lines
    139 and 141 ahead of the label. *)
Definition current_open : string :=
  "<span class=" +:+ quot +:+ "current-label" +:+ quot +:+ ">Current:</span> "
  +:+ "<span class=" +:+ quot +:+ "current-value" +:+ quot +:+ ">".

Definition btn_text_open : string :=
  "<span class=" +:+ quot +:+ "btn-text" +:+ quot +:+ ">".

Definition badge_html (n : nat) : string :=
  "<span class=" +:+ quot +:+ "key-badge" +:+ quot +:+ ">" +:+ pretty n
  +:+ "</span>".

(** The declared labels read as text: none holds markup. *)
Definition plain_labels (s : State) : Prop :=
  Forall (λ value, is_plain value = true) (currentEnumValues (vars s)).

(** *** What the handlers do to the document, said at once *)

(** The document once [updateVisemeUI value] has run: the readout, if there
    is one, shows [value], and a button is marked exactly when [value] is its
    label. *)
Definition show_value (value : string) (d : Document) : Document :=
  set_enum_buttons
    ((λ btn, set_active (bool_decide (dataset_value btn = value)) btn)
       <$> enum_buttons d)
    match readouts d !! "current-visemes" with
    | Some _ =>
        set_readouts (<["current-visemes" := current_html value]> (readouts d)) d
    | None => d
    end.

(** From [s] to [s'] either nothing of the document and the view model
    moves, or the bound slot takes [value], a declared label, and the document
    shows it. *)
Definition shows (s s' : State) : Prop :=
  (doc s' = doc s ∧ viewModelInstance (vars s') = viewModelInstance (vars s))
  ∨ ∃ p value,
      visemeProperty (vars s) = Some p
      ∧ value ∈ currentEnumValues (vars s)
      ∧ doc s' = show_value value (doc s)
      ∧ viewModelInstance (vars s')
        = <[p := value]> <$> viewModelInstance (vars s).

(** [s] with the clock [d] later and [rest] the tasks still to run. *)
Definition moved_on (d : N) (rest : list (positive * N)) (s : State) : State :=
  on_env (set_timers
    (mkTimers (now (timers (env s)) + d) rest (next_handle (timers (env s)))))
    s.

(** What lines 133-142 give a button, which no listener changes. *)
Definition face (b : Button) : string * option nat * string * string :=
  (dataset_value b, key_badge b, btn_text b, target b).

(** The badge of the button at position [k]: the key that selects it, for
    the first nine. *)
Definition badge_at (k : nat) : option nat :=
  if (k <? 9)%nat then Some (k + 1)%nat else None.

End Viseme.

(** ** Second revision: state-machine inputs (lines 209-666) *)
Module Generic.
Import Host.

(** *** CONFIG (lines 238-253) *)
Definition stateMachineName : string := "State Machine 1".

(** *** State-machine inputs

    A number is an IEEE-754 double, kept as the datum it denotes; the script
    stores and forwards numbers, and goes from and to text through
    [parseFloat] and [toFixed] only. *)
Inductive JsValue :=
  | VBool (b : bool)
  | VNum (x : spec_float).

(** An input object of the runtime.  [fire] is [None] when the object has no
    such method, and otherwise counts the calls made to it. *)
Record Input := mkInput {
  name : string;
  type : Z;
  value : JsValue;
  fire : option nat;
}.

Definition set_value (v : JsValue) (i : Input) : Input :=
  mkInput (name i) (type i) v (fire i).

Definition call_fire (i : Input) : Input :=
  mkInput (name i) (type i) (value i) (S <$> fire i).

(** [ToBoolean], as [checkbox.checked = input.value] applies it. *)
Definition truthy (v : JsValue) : bool :=
  match v with
  | VBool b => b
  | VNum (S754_zero _) | VNum S754_nan => false
  | VNum _ => true
  end.

(** *** Generated controls (lines 466-561)

    A control keeps the position of its input in [stateMachineInputs], the
    object its listener closes over.  A number is shown through
    [toFixed(1)]; the control keeps the number that is shown. *)
Inductive Control :=
  | TriggerButton (textContent : string) (input : nat)
  | BooleanToggle (label id : string) (checked : bool) (input : nat)
  | NumberSlider (label id : string) (shown : JsValue)
      (min max step : string) (assigned : JsValue) (input : nat).

Record Vars := mkVars {
  riveInstance : bool;
  stateMachineInputs : option (list Input);   (* [None]: undefined *)
}.

Record Document := mkDocument {
  canvas : bool;
  placeholder : option Placeholder;
  triggers_container : list Control;
  booleans_container : list Control;
  numbers_container : list Control;
  triggers_display : string;
  booleans_display : string;
  numbers_display : string;
}.

Record Browser := mkBrowser {
  console : list LogEntry;
  asset_requests : nat;                       (* [new Rive] calls so far *)
}.

Record State := mkState {
  vars : Vars;
  doc : Document;
  env : Browser;
}.

Definition on_vars (f : Vars → Vars) (s : State) : State :=
  mkState (f (vars s)) (doc s) (env s).
Definition on_doc (f : Document → Document) (s : State) : State :=
  mkState (vars s) (f (doc s)) (env s).
Definition on_env (f : Browser → Browser) (s : State) : State :=
  mkState (vars s) (doc s) (f (env s)).

Definition set_riveInstance (b : bool) (v : Vars) : Vars :=
  mkVars b (stateMachineInputs v).
Definition set_stateMachineInputs (l : option (list Input)) (v : Vars) : Vars :=
  mkVars (riveInstance v) l.

Definition set_placeholder (p : option Placeholder) (d : Document) : Document :=
  mkDocument (canvas d) p (triggers_container d) (booleans_container d)
    (numbers_container d) (triggers_display d) (booleans_display d)
    (numbers_display d).
Definition set_containers (t b n : list Control) (d : Document) : Document :=
  mkDocument (canvas d) (placeholder d) t b n (triggers_display d)
    (booleans_display d) (numbers_display d).
Definition set_section_displays (t b n : string) (d : Document) : Document :=
  mkDocument (canvas d) (placeholder d) (triggers_container d)
    (booleans_container d) (numbers_container d) t b n.

Definition log (e : LogEntry) (b : Browser) : Browser :=
  mkBrowser (console b ++ [e]) (asset_requests b).
Definition request_asset (b : Browser) : Browser :=
  mkBrowser (console b) (S (asset_requests b)).

(** The state when the script has been evaluated (lines 264-271). *)
Definition boot (has_canvas : bool) (ph : option Placeholder) : State :=
  {| vars := mkVars false (Some []);
     doc := mkDocument has_canvas ph [] [] [] EmptyString EmptyString
              EmptyString;
     env := mkBrowser [] 0 |}.

(** *** Error display (lines 570-580) *)

Definition nl : string := String (ascii_of_N 10) EmptyString.

Definition load_error_html : string :=
  nl +:+ "      <strong>Error loading .riv file</strong><br>"
  +:+ nl +:+ "      Please ensure your file is placed in the <code>/public</code> folder"
  +:+ nl +:+ "      and update the path in <code>main.js</code>"
  +:+ nl +:+ "    ".

Definition showLoadError (s : State) : State :=
  on_doc (λ d,
    set_placeholder
      ((λ p, mkPlaceholder load_error_html (ph_display p) "#ff6b6b")
         <$> placeholder d) d) s.

(** *** Controls set-up (lines 387-456) *)

(** One round of the [forEach] of lines 425-450, for the input at [index].
    The runtime gives an input of type 58 a number for its value
    ([holds_number]); were it anything else, [toFixed] at line 535 would throw
    and no slider be built, a case this function does not follow: it is meant
    for arrays in which the inputs of type 58 hold numbers, and the slider it
    gives for any other has no text ([shown_text]) and no position
    ([position]). *)
Definition add_control (index : nat) (input : Input) (s : State) : State :=
  let d := doc s in
  let inputName := name input in
  if decide (type input = 56%Z) then
    on_doc (set_containers
      (triggers_container d ++ [TriggerButton inputName index])
      (booleans_container d) (numbers_container d)) s
  else if decide (type input = 59%Z) then
    on_doc (set_containers (triggers_container d)
      (booleans_container d
         ++ [BooleanToggle inputName ("bool-" +:+ inputName)
               (truthy (value input)) index])
      (numbers_container d)) s
  else if decide (type input = 58%Z) then
    on_doc (set_containers (triggers_container d) (booleans_container d)
      (numbers_container d
         ++ [NumberSlider inputName ("num-" +:+ inputName) (value input)
               "0" "100" "0.1" (value input) index])) s
  else
    on_env (log (LogInfo ("Unknown input type: " +:+ pretty (type input)
                          +:+ " for " +:+ inputName))) s.

Definition has_type (tag : Z) (inputs : list Input) : bool :=
  existsb (λ i, bool_decide (type i = tag)) inputs.

Definition block_or_none (b : bool) : string :=
  if b then "block" else "none".

(** [found] is what [riveInstance.stateMachineInputs(...)] returns; line 394
    stores it before line 396 looks at it. *)
Definition setupControls (found : option (list Input)) (s : State) : State :=
  if negb (riveInstance (vars s)) then
    on_env (log (LogWarn "Rive instance not ready")) s
  else
    let s := on_vars (set_stateMachineInputs found) s in
    match found with
    | None | Some [] => on_env (log (LogInfo "No state machine inputs found")) s
    | Some inputs =>
        let s := on_env (log (LogInfo "Found inputs:")) s in
        let s :=
          on_doc (λ d,
            set_placeholder
              ((λ p, mkPlaceholder (ph_innerHTML p) "none" (ph_color p))
                 <$> placeholder d) d) s in
        let s := on_doc (set_containers [] [] []) s in
        let s :=
          foldl (λ s '(index, input), add_control index input s) s
            (imap pair inputs) in
        on_doc (set_section_displays
          (block_or_none (has_type 56 inputs))
          (block_or_none (has_type 59 inputs))
          (block_or_none (has_type 58 inputs))) s
    end.

(** *** Initialisation and the load callbacks (lines 281-352) *)

(** [thrown] is the exception of the [Rive] constructor, if it throws. *)
Definition initRive (thrown : option string) (s : State) : State :=
  if negb (canvas (doc s)) then
    on_env (log (LogError "Canvas element not found!" EmptyString)) s
  else
    match thrown with
    | None => on_env request_asset (on_vars (set_riveInstance true) s)
    | Some error =>
        showLoadError
          (on_env (log (LogError "Failed to initialize Rive:" error))
             (on_env request_asset s))
    end.

Definition onLoad (found : option (list Input)) (s : State) : State :=
  setupControls found
    (on_env (log (LogInfo "Rive animation loaded successfully!")) s).

Definition onLoadError (error : string) (s : State) : State :=
  showLoadError (on_env (log (LogError "Error loading Rive file:" error)) s).

(** *** Exported helpers (lines 607-656) *)

Inductive Outcome :=
  | Returned (s : State)
  | Threw (error : string).

Definition type_error : string := "TypeError".

(** [stateMachineInputs.find((i) => i.name === inputName)], with the
    position of the input found. *)
Definition find_input (inputName : string) (inputs : list Input)
  : option (nat * Input) :=
  list_find (λ i, name i = inputName) inputs.

Definition update_input (k : nat) (f : Input → Input) (s : State) : State :=
  on_vars (λ v,
    set_stateMachineInputs (alter f k <$> stateMachineInputs v) v) s.

Definition triggerInput (inputName : string) (s : State) : Outcome :=
  match stateMachineInputs (vars s) with
  | None => Threw type_error
  | Some inputs =>
      match find_input inputName inputs with
      | Some (k, input) =>
          if decide (is_Some (fire input))
          then Returned (update_input k call_fire s)
          else Returned s
      | None => Returned s
      end
  end.

Definition set_input (inputName : string) (v : JsValue) (s : State)
  : Outcome :=
  match stateMachineInputs (vars s) with
  | None => Threw type_error
  | Some inputs =>
      match find_input inputName inputs with
      | Some (k, _) => Returned (update_input k (set_value v) s)
      | None => Returned s
      end
  end.

Definition setBooleanInput (inputName : string) (value : bool) (s : State)
  : Outcome :=
  set_input inputName (VBool value) s.

Definition setNumberInput (inputName : string) (value : spec_float)
    (s : State) : Outcome :=
  set_input inputName (VNum value) s.

(** *** The listeners of the generated controls (lines 473-476, 507-510) *)

(** A click on the trigger button at position [j] of its container: the
    listener logs and calls [input.fire()], which throws when the input has no
    such method. *)
Definition trigger_click (j : nat) (s : State) : Outcome :=
  match triggers_container (doc s) !! j with
  | Some (TriggerButton textContent k) =>
      let s := on_env (log (LogInfo ("Firing trigger: " +:+ textContent))) s in
      match stateMachineInputs (vars s) ≫= (.!! k) with
      | Some input =>
          if decide (is_Some (fire input))
          then Returned (update_input k call_fire s)
          else Threw type_error
      | None => Threw type_error
      end
  | _ => Returned s
  end.

Definition show_bool (b : bool) : string := if b then "true" else "false".

Definition set_checked (j : nat) (checked : bool) (d : Document) : Document :=
  mkDocument (canvas d) (placeholder d) (triggers_container d)
    (alter (λ c, match c with
                 | BooleanToggle label id _ k => BooleanToggle label id checked k
                 | _ => c
                 end) j (booleans_container d))
    (numbers_container d) (triggers_display d) (booleans_display d)
    (numbers_display d).

(** The toggle at position [j] of its container has been switched to
    [checked]: the listener logs and writes [checked] to its input. *)
Definition boolean_change (j : nat) (checked : bool) (s : State) : State :=
  match booleans_container (doc s) !! j with
  | Some (BooleanToggle label _ _ k) =>
      let s := on_doc (set_checked j checked) s in
      let s :=
        on_env (log (LogInfo ("Setting " +:+ label +:+ " to: "
                              +:+ show_bool checked))) s in
      update_input k (set_value (VBool checked)) s
  | _ => s
  end.

(** *** The controls [setupControls] is to build, said at once *)

Definition trigger_control (k : nat) (i : Input) : Control :=
  TriggerButton (name i) k.
Definition boolean_control (k : nat) (i : Input) : Control :=
  BooleanToggle (name i) ("bool-" +:+ name i) (truthy (value i)) k.
Definition number_control (k : nat) (i : Input) : Control :=
  NumberSlider (name i) ("num-" +:+ name i) (value i) "0" "100" "0.1"
    (value i) k.

(** The controls for the inputs of type [tag] among the numbered inputs
    [l], in their order. *)
Definition controls_of (tag : Z) (mk : nat → Input → Control)
    (l : list (nat * Input)) : list Control :=
  (λ ki, mk ki.1 ki.2) <$> filter (λ ki, type ki.2 = tag) l.

(** An input of type 58 holds a number, as the runtime has it; line 535
    calls [toFixed] on its value. *)
Definition holds_number (i : Input) : Prop :=
  type i = 58%Z → ∃ x, value i = VNum x.

(** From [s] to [s'] the input at position [k] has become [new]; the other
    inputs, the document and the console are as they were. *)
Definition written_to (k : nat) (new : Input) (s s' : State) : Prop :=
  stateMachineInputs (vars s') = (<[k := new]> <$> stateMachineInputs (vars s))
  ∧ riveInstance (vars s') = riveInstance (vars s)
  ∧ doc s' = doc s ∧ env s' = env s.

(** The [forEach] of lines 425-450 over the numbered inputs [l]. *)
Definition add_all (l : list (nat * Input)) (s : State) : State :=
  foldl (λ s '(index, input), add_control index input s) s l.

Definition is_known (ki : nat * Input) : Prop :=
  type ki.2 = 56%Z ∨ type ki.2 = 59%Z ∨ type ki.2 = 58%Z.

(** The lines logged for the inputs of no known type among [l]. *)
Definition unknown_lines (l : list (nat * Input)) : list LogEntry :=
  (λ ki, LogInfo ("Unknown input type: " +:+ pretty (type ki.2)
                  +:+ " for " +:+ name ki.2))
    <$> filter (λ ki, ¬ is_known ki) l.

(** *** The number control (lines 525-561) *)












End Generic.

(** ** Properties of the host functions *)
Module HostProofs.
Import Host.

Lemma app_cons c s1 s2 : String c s1 +:+ s2 = String c (s1 +:+ s2).
Proof. reflexivity. Qed.

Lemma app_empty s : EmptyString +:+ s = s.
Proof. reflexivity. Qed.

Lemma app_empty_r t : t +:+ EmptyString = t.
Proof.
  induction t as [|a t IH]; [reflexivity|]. rewrite app_cons. by rewrite IH.
Qed.

Lemma snoc_app t c X : snoc t c +:+ X = t +:+ String c X.
Proof.
  unfold snoc. induction t as [|a t IH]; [reflexivity|].
  rewrite !app_cons. by rewrite IH.
Qed.

(** The parser reads a string piece by piece. *)
Lemma html_run_app p s1 s2 :
  html_run p (s1 +:+ s2) = html_run p s1 ≫= λ p', html_run p' s2.
Proof.
  revert p. induction s1 as [|c s1 IH]; intros p; [done|].
  rewrite app_cons. cbn [html_run].
  destruct (html_step p c); cbn; [apply IH|done].
Qed.

(** Between tags a string that reads as text is added to the text of the
    innermost open element, and nothing else moves. *)
Lemma html_run_plain p f below X :
  p_tok p = Data → p_stack p = f :: below → is_plain X = true →
  html_run p X
  = Some (mkParser Data (p_tag p)
            (mkFrame (fr_name f) (fr_attrs f) (fr_kids f) (fr_text f +:+ X)
               :: below)).
Proof.
  revert p f. induction X as [|c X IH]; intros p f Ht Hs Hp.
  - cbn. destruct p as [tk tg st], f as [n a k t]. cbn in *. subst.
    by rewrite app_empty_r.
  - cbn in Hp. apply andb_true_iff in Hp as [Hc HX].
    apply negb_true_iff in Hc.
    apply orb_false_iff in Hc as [Hc H13].
    apply orb_false_iff in Hc as [Hc H0].
    apply orb_false_iff in Hc as [H60 H38].
    cbn [html_run]. unfold html_step. rewrite Ht, H0, H13. cbn [orb].
    unfold data_char. rewrite H38, H60. unfold emit_char. cbn. rewrite Hs.
    erewrite IH; [|done|done|done]. cbn. by rewrite snoc_app.
Qed.









(** *** The range input *)




Lemma below_0 m e :
  range_position "0" "100" "0.1" (S754_finite true m e) = Some (S754_zero false).
Proof. reflexivity. Qed.

(** The text of the first element of class [cls] in [pre +:+ X +:+ "</span>"],
    where [pre] is markup given in full that leaves the parser between tags
    and [X] reads as text. *)
Ltac render pre X HX :=
  unfold text_in, parse_fragment; rewrite (html_run_app _ pre);
  let r := fresh "r" in
  set (r := html_run html_start pre); vm_compute in r; subst r;
  cbn [mbind option_bind]; rewrite (html_run_app _ X);
  erewrite html_run_plain; [|reflexivity|reflexivity|exact HX];
  cbn [mbind option_bind p_tag fr_name fr_attrs fr_kids fr_text];
  rewrite app_empty;
  destruct X as [|? ?]; vm_compute; [reflexivity|];
  first [reflexivity
        |match goal with
         | |- Some (String ?c _) = Some (String ?c ?Y) =>
             exact (f_equal (λ t, Some (String c t)) (app_empty_r Y))
         end].

End HostProofs.

(** ** Properties of the first revision *)
Module VisemeProofs.
Import Host Viseme HostProofs.

Implicit Types (s : State) (key p value : string) (j : nat).

(** *** What is shown *)

(** The readout shows the value put into its markup, when the value reads as
    text. *)
Lemma shown_current_html X :
  is_plain X = true → shown_value (current_html X) = Some X.
Proof.
  intros HX. unfold shown_value.
  assert (current_html X = current_open +:+ (X +:+ "</span>")) as ->
    by (vm_compute; reflexivity).
  render current_open X HX.
Qed.

(** A button shows its text and its badge, when the text reads as text. *)
Lemma button_text (b : Button) (k : nat) :
  key_badge b = badge_at k → is_plain (btn_text b) = true →
  text_in "btn-text" (button_html b) = Some (btn_text b)
  ∧ text_in "key-badge" (button_html b) = pretty <$> key_badge b.
Proof.
  intros Hk Hp. unfold button_html. rewrite Hk. unfold badge_at.
  generalize dependent (btn_text b). intros X HX.
  destruct (k <? 9)%nat eqn:Hlt.
  - apply Nat.ltb_lt in Hlt.
    do 9 (destruct k as [|k];
          [match goal with
           | |- text_in _ ?h = _ ∧ _ =>
               match h with
               | context [pretty ?n] =>
                   replace h
                     with ((badge_html n +:+ btn_text_open)
                           +:+ (X +:+ "</span>"))
                     by (vm_compute; reflexivity);
                   split; render (badge_html n +:+ btn_text_open) X HX
               end
           end|]).
    lia.
  - match goal with
    | |- text_in _ ?h = _ ∧ _ =>
        replace h with (btn_text_open +:+ (X +:+ "</span>"))
          by (vm_compute; reflexivity)
    end.
    split; render btn_text_open X HX.
Qed.

(** *** What each block of the handlers leaves alone *)

Lemma write_enum_frame p value s :
  doc (write_enum p value s) = doc s ∧ env (write_enum p value s) = env s
  ∧ visemeProperty (vars (write_enum p value s)) = visemeProperty (vars s)
  ∧ currentEnumValues (vars (write_enum p value s)) = currentEnumValues (vars s)
  ∧ resetTimer (vars (write_enum p value s)) = resetTimer (vars s).
Proof. done. Qed.

Lemma updateCurrentDisplay_frame name value s :
  vars (updateCurrentDisplay name value s) = vars s
  ∧ env (updateCurrentDisplay name value s) = env s
  ∧ enum_buttons (doc (updateCurrentDisplay name value s))
    = enum_buttons (doc s).
Proof. unfold updateCurrentDisplay. by destruct (readouts (doc s) !! _). Qed.

Lemma updateVisemeUI_frame value s :
  vars (updateVisemeUI value s) = vars s
  ∧ env (updateVisemeUI value s) = env s.
Proof.
  unfold updateVisemeUI. cbn.
  by destruct (updateCurrentDisplay_frame "visemes" value s) as (-> & -> & _).
Qed.

Lemma applyViseme_env p value s : env (applyViseme p value s) = env s.
Proof.
  unfold applyViseme.
  by destruct (updateVisemeUI_frame value (write_enum p value s)) as [_ ->].
Qed.

Lemma applyViseme_vars p value s :
  visemeProperty (vars (applyViseme p value s)) = visemeProperty (vars s)
  ∧ currentEnumValues (vars (applyViseme p value s))
    = currentEnumValues (vars s)
  ∧ resetTimer (vars (applyViseme p value s)) = resetTimer (vars s).
Proof.
  unfold applyViseme.
  by destruct (updateVisemeUI_frame value (write_enum p value s)) as [-> _].
Qed.

Lemma resetVisemeToNone_frame s :
  env (resetVisemeToNone s) = env s
  ∧ visemeProperty (vars (resetVisemeToNone s)) = visemeProperty (vars s)
  ∧ currentEnumValues (vars (resetVisemeToNone s)) = currentEnumValues (vars s)
  ∧ resetTimer (vars (resetVisemeToNone s)) = resetTimer (vars s).
Proof.
  unfold resetVisemeToNone.
  destruct (visemeProperty (vars s)) as [p|] eqn:Hp; [|done].
  case_bool_decide; [|by rewrite Hp].
  fold (applyViseme p "none" s).
  rewrite applyViseme_env.
  destruct (applyViseme_vars p "none" s) as (-> & -> & ->). by rewrite Hp.
Qed.

Lemma cancelReset_frame s :
  doc (cancelReset s) = doc s
  ∧ visemeProperty (vars (cancelReset s)) = visemeProperty (vars s)
  ∧ currentEnumValues (vars (cancelReset s)) = currentEnumValues (vars s)
  ∧ viewModelInstance (vars (cancelReset s)) = viewModelInstance (vars s).
Proof. unfold cancelReset. by destruct (resetTimer (vars s)). Qed.

(** *** The four ways through the keydown listener *)

Lemma keydown_no_labels key s :
  currentEnumValues (vars s) = [] → keydown key s = s.
Proof. unfold keydown. intros ->. by rewrite andb_false_r. Qed.

Lemma is_shortcut_Some (k : Z) :
  is_shortcut (Some k) = true ↔ (1 ≤ k ≤ 9)%Z.
Proof. unfold is_shortcut. rewrite andb_true_iff, !Z.leb_le. done. Qed.

Lemma keydown_in_range key s (k : Z) value p :
  parseInt key = Some k → (1 ≤ k ≤ 9)%Z →
  currentEnumValues (vars s) !! Z.to_nat (k - 1) = Some value →
  visemeProperty (vars s) = Some p →
  keydown key s = scheduleReset (applyViseme p value (cancelReset s)).
Proof.
  intros Hk Hr Hv Hp. unfold keydown. rewrite Hk.
  rewrite (proj2 (is_shortcut_Some k) Hr). cbn [default from_option id andb].
  destruct (cancelReset_frame s) as (_ & -> & -> & _).
  rewrite Hv, Hp.
  destruct (currentEnumValues (vars s)); [done|]. done.
Qed.

Lemma keydown_out_of_range key s (k : Z) :
  parseInt key = Some k → (1 ≤ k ≤ 9)%Z →
  currentEnumValues (vars s) ≠ [] →
  currentEnumValues (vars s) !! Z.to_nat (k - 1) = None →
  keydown key s = cancelReset s.
Proof.
  intros Hk Hr Hne Hv. unfold keydown. rewrite Hk.
  rewrite (proj2 (is_shortcut_Some k) Hr). cbn [default from_option id andb].
  destruct (cancelReset_frame s) as (_ & _ & -> & _). rewrite Hv.
  by destruct (currentEnumValues (vars s)).
Qed.

(** *** Shape is kept by every block *)

Lemma same_shape_refl s : same_shape s s.
Proof. by repeat split. Qed.

Lemma same_shape_trans s1 s2 s3 :
  same_shape s1 s2 → same_shape s2 s3 → same_shape s1 s3.
Proof.
  intros (a1 & a2 & a3 & a4 & a5 & a6) (b1 & b2 & b3 & b4 & b5 & b6).
  repeat split; try congruence; auto.
Qed.

Lemma write_enum_shape q value s : same_shape s (write_enum q value s).
Proof.
  repeat split; try done.
  intros p. unfold read_enum, write_enum. cbn.
  destruct (viewModelInstance (vars s)) as [vm|]; cbn; [|done].
  intros Hp. destruct (decide (q = p)) as [->|Hne].
  - rewrite lookup_insert_eq. eauto.
  - by rewrite lookup_insert_ne.
Qed.

Lemma updateCurrentDisplay_shape name value s :
  same_shape s (updateCurrentDisplay name value s).
Proof.
  unfold updateCurrentDisplay.
  destruct (readouts (doc s) !! _) eqn:Hr; [|apply same_shape_refl].
  repeat split; try done.
  unfold readout. cbn. intros Hs.
  destruct (decide ("current-" +:+ name = "current-visemes")) as [->|Hne].
  - rewrite lookup_insert_eq. eauto.
  - by rewrite lookup_insert_ne.
Qed.

Lemma remark_shape (f : nat → Button → bool) s :
  same_shape s
    (on_doc (λ d,
       set_enum_buttons
         (imap (λ k btn, set_active (f k btn) btn) (enum_buttons d)) d) s).
Proof.
  repeat split; try done; cbn.
  - rewrite fmap_imap. apply (imap_const dataset_value).
  - rewrite fmap_imap. apply (imap_const target).
Qed.

Lemma remark_all_shape (f : Button → bool) s :
  same_shape s
    (on_doc (λ d,
       set_enum_buttons
         ((λ btn, set_active (f btn) btn) <$> enum_buttons d) d) s).
Proof. repeat split; try done; cbn; by rewrite <- list_fmap_compose. Qed.

Lemma updateVisemeUI_shape value s : same_shape s (updateVisemeUI value s).
Proof.
  eapply same_shape_trans; [apply (updateCurrentDisplay_shape "visemes" value)|].
  apply (remark_all_shape (λ btn, bool_decide (dataset_value btn = value))).
Qed.

Lemma applyViseme_shape p value s : same_shape s (applyViseme p value s).
Proof.
  eapply same_shape_trans; [apply (write_enum_shape p value)|].
  apply updateVisemeUI_shape.
Qed.

Lemma resetVisemeToNone_shape s : same_shape s (resetVisemeToNone s).
Proof.
  unfold resetVisemeToNone.
  destruct (visemeProperty (vars s)) as [p|]; [|apply same_shape_refl].
  case_bool_decide; [|apply same_shape_refl].
  apply (applyViseme_shape p "none").
Qed.

Lemma cancelReset_shape s : same_shape s (cancelReset s).
Proof. unfold cancelReset. by destruct (resetTimer (vars s)). Qed.

Lemma scheduleReset_shape s : same_shape s (scheduleReset s).
Proof. done. Qed.

Lemma click_shape j s : same_shape s (click j s).
Proof.
  unfold click.
  destruct (enum_buttons (doc s) !! j) as [button|]; [|apply same_shape_refl].
  eapply same_shape_trans; [apply write_enum_shape|].
  eapply same_shape_trans; [|apply updateCurrentDisplay_shape].
  apply (remark_shape (λ k _, bool_decide (k = j))).
Qed.

Lemma keydown_shape key s : same_shape s (keydown key s).
Proof.
  unfold keydown.
  destruct (_ && _); [|apply same_shape_refl].
  eapply same_shape_trans; [apply cancelReset_shape|].
  destruct (_ !! _) as [value|]; [|apply same_shape_refl].
  destruct (visemeProperty _) as [p|]; [|apply same_shape_refl].
  eapply same_shape_trans; [apply applyViseme_shape|].
  apply scheduleReset_shape.
Qed.

Lemma fire_all_shape {A} (due : list A) s :
  same_shape s (foldl (λ s _, resetVisemeToNone s) s due).
Proof.
  revert s. induction due as [|task due IH]; intros s; cbn.
  - apply same_shape_refl.
  - eapply same_shape_trans; [apply resetVisemeToNone_shape|apply IH].
Qed.

Lemma elapse_shape (d : N) s : same_shape s (elapse d s).
Proof.
  unfold elapse. cbn.
  eapply same_shape_trans; [|apply fire_all_shape]. done.
Qed.

Lemma step_shape e s : same_shape s (step e s).
Proof.
  destruct e; [apply keydown_shape|apply click_shape|apply elapse_shape].
Qed.

Lemma control_inv_shape s s' : same_shape s s' → control_inv s → control_inv s'.
Proof.
  intros (a1 & a2 & a3 & a4 & a5 & a6) (c1 & c2 & c3).
  unfold control_inv. rewrite a1, a2, a3, a4. repeat split; [done..|].
  intros Hne. destruct (c3 Hne) as (p & Hp & Hv & Hr). exists p. auto.
Qed.

Lemma unloaded_shape s s' : same_shape s s' → unloaded s → unloaded s'.
Proof.
  intros (a1 & _ & a3 & _) [u1 u2]. unfold unloaded. rewrite a1.
  split; [done|]. rewrite u2 in a3. by apply fmap_nil_inv in a3.
Qed.

(** *** The reset task *)

Lemma timer_inv_frame s s' :
  timers (env s') = timers (env s) →
  resetTimer (vars s') = resetTimer (vars s) →
  timer_inv s → timer_inv s'.
Proof. unfold timer_inv. by intros -> ->. Qed.

(** Under the invariant, lines 192-195 leave no task behind. *)
Lemma cancelReset_clears s :
  timer_inv s →
  pending (timers (env (cancelReset s))) = []
  ∧ next_handle (timers (env (cancelReset s))) = next_handle (timers (env s))
  ∧ now (timers (env (cancelReset s))) = now (timers (env s))
  ∧ resetTimer (vars (cancelReset s)) = None.
Proof.
  intros [Hlen Hall]. unfold cancelReset.
  destruct (resetTimer (vars s)) as [h|] eqn:Hh; cbn.
  - repeat split; try done.
    destruct (pending (timers (env s))) as [|[h' due] [|??]]; cbn in *;
      [done| |lia].
    apply Forall_cons in Hall as [[[= <-] _] _]. by rewrite decide_False by auto.
  - repeat split; try done.
    destruct (pending (timers (env s))) as [|task ?]; [done|].
    by apply Forall_cons in Hall as [[? _] _].
Qed.

Lemma cancelReset_timer_inv s : timer_inv s → timer_inv (cancelReset s).
Proof.
  intros H. destruct (cancelReset_clears s H) as (Hp & _).
  unfold timer_inv. rewrite Hp. cbn. split; [lia|constructor].
Qed.

Lemma scheduleReset_timers s :
  timers (env (scheduleReset s))
  = (setTimeout RESET_DELAY_MS (timers (env s))).2
  ∧ resetTimer (vars (scheduleReset s)) = Some (next_handle (timers (env s))).
Proof. done. Qed.

(** Line 202 after lines 192-195: the queue is the new task alone. *)
Lemma scheduleReset_after_cancel p value s :
  timer_inv s →
  let s' := scheduleReset (applyViseme p value (cancelReset s)) in
  pending (timers (env s'))
  = [(next_handle (timers (env s)),
      (now (timers (env s)) + RESET_DELAY_MS)%N)]
  ∧ resetTimer (vars s') = Some (next_handle (timers (env s)))
  ∧ next_handle (timers (env s')) = Pos.succ (next_handle (timers (env s)))
  ∧ now (timers (env s')) = now (timers (env s)).
Proof.
  intros H. destruct (cancelReset_clears s H) as (Hp & Hn & Ht & _).
  cbv zeta.
  destruct (scheduleReset_timers (applyViseme p value (cancelReset s)))
    as [-> ->].
  rewrite applyViseme_env. unfold setTimeout. cbn. by rewrite Hp, Hn, Ht.
Qed.

Lemma click_frame j s :
  env (click j s) = env s
  ∧ resetTimer (vars (click j s)) = resetTimer (vars s).
Proof.
  unfold click. destruct (enum_buttons (doc s) !! j) as [button|]; [|done].
  match goal with
  | |- context [updateCurrentDisplay ?n ?v ?t] =>
      destruct (updateCurrentDisplay_frame n v t) as (-> & -> & _)
  end. done.
Qed.

Lemma fire_all_frame {A} (due : list A) s :
  env (foldl (λ s _, resetVisemeToNone s) s due) = env s
  ∧ resetTimer (vars (foldl (λ s _, resetVisemeToNone s) s due))
    = resetTimer (vars s).
Proof.
  revert s. induction due as [|task due IH]; intros s; cbn; [done|].
  destruct (IH (resetVisemeToNone s)) as [-> ->].
  by destruct (resetVisemeToNone_frame s) as (-> & _ & _ & ->).
Qed.

Lemma elapse_timers (d : N) s :
  timers (env (elapse d s)) = (advance d (timers (env s))).2
  ∧ resetTimer (vars (elapse d s)) = resetTimer (vars s).
Proof.
  unfold elapse. cbn.
  match goal with
  | |- context [foldl _ ?t ?due] =>
      destruct (fire_all_frame due t) as [-> ->]
  end. done.
Qed.

Lemma elapse_timer_inv (d : N) s : timer_inv s → timer_inv (elapse d s).
Proof.
  intros [Hlen Hall]. unfold timer_inv.
  destruct (elapse_timers d s) as [-> ->]. cbn. split.
  - etrans; [apply length_filter|done].
  - rewrite Forall_forall in *. intros task [_ Hin]%list_elem_of_filter. auto.
Qed.

Lemma keydown_timer_inv key s : timer_inv s → timer_inv (keydown key s).
Proof.
  intros H. unfold keydown.
  destruct (_ && _); [|done].
  destruct (_ !! _) as [value|]; [|by apply cancelReset_timer_inv].
  destruct (visemeProperty _) as [p|]; [|by apply cancelReset_timer_inv].
  destruct (scheduleReset_after_cancel p value s H) as (Hp & Hh & Hn & _).
  unfold timer_inv. rewrite Hp, Hh, Hn. cbn. split; [lia|].
  repeat constructor. cbn. lia.
Qed.

Lemma step_timer_inv e s : timer_inv s → timer_inv (step e s).
Proof.
  destruct e as [key|j|d]; cbn.
  - apply keydown_timer_inv.
  - destruct (click_frame j s) as [He Hr].
    apply timer_inv_frame; [by rewrite He|done].
  - apply elapse_timer_inv.
Qed.

(** *** Loading *)

Lemma createEnumControl_control_inv name p enumName file s :
  name = "visemes" →
  unloaded s → visemeProperty (vars s) = Some p → is_Some (read_enum p s) →
  control_inv (createEnumControl name p enumName file s).
Proof.
  intros -> [_ Hb] Hp Hv. unfold control_inv, createEnumControl. cbn.
  rewrite Hb. cbn. repeat split.
  - rewrite fmap_imap.
    transitivity (id <$> lookup_enum_values enumName file);
      [exact (imap_const id _)|apply list_fmap_id].
  - rewrite fmap_imap, Hp.
    replace (imap _ _) with ((λ _ : string, p) <$> lookup_enum_values enumName file)
      by (symmetry; exact (imap_const (λ _ : string, p) _)).
    apply Forall_fmap, Forall_true. done.
  - intros _. exists p. repeat split; [done..|].
    unfold readout. cbn. rewrite lookup_insert_eq. eauto.
Qed.

Lemma find_visemes_Some vm p : find_visemes vm = Some p → is_Some (vm !! p).
Proof.
  unfold find_visemes. repeat case_decide; naive_solver.
Qed.

Lemma onLoad_control_inv file s :
  unloaded s → control_inv s → control_inv (onLoad file s).
Proof.
  intros Hu Hc. unfold onLoad. cbn.
  destruct (rive_viewModelInstance file) as [vm|] eqn:Hvm; cbn.
  - unfold setupViewModelControls. cbn.
    destruct (find_visemes vm) as [p|] eqn:Hp.
    + match goal with
      | |- control_inv (on_doc _ (createEnumControl _ _ _ _ ?t)) =>
          apply (control_inv_shape
                   (createEnumControl "visemes" p phonemesEnumName file t));
            [by repeat split|];
            apply createEnumControl_control_inv; [done| |done|]
      end.
      * destruct Hu. by split.
      * unfold read_enum. cbn. by apply find_visemes_Some.
    + destruct Hu as [HL Hb].
      unfold control_inv. cbn. rewrite Hb, HL. repeat split; try done.
  - destruct Hu as [HL Hb], Hc as (_ & _ & _).
    unfold control_inv. cbn. rewrite Hb, HL. repeat split; try done.
Qed.

Lemma onLoad_frame file s :
  timers (env (onLoad file s)) = timers (env s)
  ∧ resetTimer (vars (onLoad file s)) = resetTimer (vars s).
Proof.
  unfold onLoad. cbn.
  destruct (rive_viewModelInstance file) as [vm|]; cbn; [|done].
  unfold setupViewModelControls. cbn. by destruct (find_visemes vm).
Qed.

Lemma initRive_shape s : same_shape s (initRive s).
Proof. unfold initRive. by destruct (canvas (doc s)). Qed.

Lemma initRive_frame s :
  timers (env (initRive s)) = timers (env s)
  ∧ resetTimer (vars (initRive s)) = resetTimer (vars s).
Proof. unfold initRive. by destruct (canvas (doc s)). Qed.

(** *** Every state of every run *)

Lemma reachable_inv ph s : reachable ph s → inv ph s.
Proof.
  induction 1 as [page t0|ph s e _ (Ht & Hc & Hu)|s _ (Ht & Hc & Hu)
                  |s file _ (Ht & Hc & Hu)|s error _ (Ht & Hc & Hu)].
  - repeat split; try done; cbn; [lia|constructor..].
  - split; [by apply step_timer_inv|]. split.
    + eapply control_inv_shape; [apply step_shape|done].
    + intros Hph. eapply unloaded_shape; [apply step_shape|auto].
  - destruct (initRive_frame s) as [He Hr].
    split; [by eapply timer_inv_frame|]. split.
    + eapply control_inv_shape; [apply initRive_shape|done].
    + intros _. eapply unloaded_shape; [apply initRive_shape|by apply Hu].
  - destruct (onLoad_frame file s) as [He Hr].
    split; [by eapply timer_inv_frame|]. split; [|done].
    apply onLoad_control_inv; [by apply Hu|done].
  - split; [by eapply timer_inv_frame|]. split; [|intros _; by apply Hu].
    eapply control_inv_shape; [|done]. by repeat split.
Qed.

(** *** Which steps schedule *)

Lemma keydown_next_handle key s :
  timer_inv s →
  next_handle (timers (env (keydown key s))) = next_handle (timers (env s))
  ∨ ∃ p value, keydown key s = scheduleReset (applyViseme p value (cancelReset s)).
Proof.
  intros H. unfold keydown.
  destruct (_ && _); [|by left].
  destruct (cancelReset_clears s H) as (_ & Hn & _).
  destruct (_ !! _) as [value|]; [|by left].
  destruct (visemeProperty _) as [p|]; [|by left].
  right. by exists p, value.
Qed.

Lemma schedules_inv e s :
  timer_inv s → schedules e s →
  ∃ key p value,
    e = KeyDown key
    ∧ step e s = scheduleReset (applyViseme p value (cancelReset s)).
Proof.
  intros H Hs. unfold schedules in Hs.
  destruct e as [key|j|d]; cbn [step] in *.
  - destruct (keydown_next_handle key s H) as [Heq|(p & value & Heq)]; [done|].
    by exists key, p, value.
  - by destruct (click_frame j s) as [He _]; rewrite He in Hs.
  - by destruct (elapse_timers d s) as [He _]; rewrite He in Hs.
Qed.

(** C4. In every state the page can reach at most one reset task is
    outstanding; and whenever a step schedules a reset task, the queue
    afterwards holds that task alone, due 1000 ms later, under a handle that
    no task outstanding before the step had: what was outstanding has been
    cancelled. *)
Theorem at_most_one_reset_task ph s :
  reachable ph s →
  (length (pending (timers (env s))) ≤ 1)%nat
  ∧ ∀ e, schedules e s →
      pending (timers (env (step e s)))
      = [(next_handle (timers (env s)), (now (timers (env s)) + 1000)%N)]
      ∧ Forall (λ task, task.1 ≠ next_handle (timers (env s)))
          (pending (timers (env s))).
Proof.
  intros Hr. destruct (reachable_inv ph s Hr) as (Ht & _ & _).
  split; [apply Ht|]. intros e He.
  destruct (schedules_inv e s Ht He) as (key & p & value & -> & ->).
  destruct (scheduleReset_after_cancel p value s Ht) as (-> & _).
  split; [done|]. destruct Ht as [_ Hall].
  eapply Forall_impl; [apply Hall|]. cbn. intros task [_ Hlt] Heq.
  rewrite Heq in Hlt. lia.
Qed.

Lemma demo_reachable labels : reachable Loaded (demo labels).
Proof.
  apply reach_load, (reach_init (boot demo_page 0)), reach_boot.
Defined.

Lemma at_most_one_reset_task_witness :
  let s := keydown "2" (demo ["none"; "AA"; "E"; "O"]) in
  (length (pending (timers (env s))) ≤ 1)%nat
  ∧ ∀ e, schedules e s →
      pending (timers (env (step e s)))
      = [(next_handle (timers (env s)), (now (timers (env s)) + 1000)%N)]
      ∧ Forall (λ task, task.1 ≠ next_handle (timers (env s)))
          (pending (timers (env s))).
Proof.
  apply (at_most_one_reset_task Loaded).
  apply (reach_event Loaded _ (KeyDown "2")), demo_reachable.
Defined.

(** C10. A keydown whose key does not parse to an integer from 1 to 9
    changes nothing: the state after is the state before, so the enum value,
    the display and a pending reset task are as they were. *)
Theorem keydown_other_key_changes_nothing key s :
  is_shortcut (parseInt key) = false → keydown key s = s.
Proof. unfold keydown. by intros ->. Qed.

Lemma keydown_other_key_changes_nothing_witness :
  let s := keydown "2" (demo ["none"; "AA"; "E"; "O"]) in
  keydown "0" s = s ∧ keydown "a" s = s ∧ keydown "F1" s = s.
Proof.
  intros s.
  exact (conj (keydown_other_key_changes_nothing "0" s eq_refl)
           (conj (keydown_other_key_changes_nothing "a" s eq_refl)
              (keydown_other_key_changes_nothing "F1" s eq_refl))).
Defined.

(** *** The reset task where no label is ["none"] *)

Lemma resetVisemeToNone_without_none s :
  "none" ∉ currentEnumValues (vars s) → resetVisemeToNone s = s.
Proof.
  intros H. unfold resetVisemeToNone.
  destruct (visemeProperty (vars s)); [|done]. by rewrite bool_decide_eq_false_2.
Qed.

Lemma fire_all_without_none {A} (due : list A) s :
  "none" ∉ currentEnumValues (vars s) →
  foldl (λ s _, resetVisemeToNone s) s due = s.
Proof.
  intros H. induction due as [|task due IH]; cbn; [done|].
  by rewrite resetVisemeToNone_without_none.
Qed.

(** C6. Where ["none"] is not among the declared labels, the reset callback
    changes nothing at all, and time passing, with whatever reset task
    falling due, leaves the variables (the held value with them) and the
    document as they were. *)
Theorem reset_without_none_changes_nothing s :
  "none" ∉ currentEnumValues (vars s) →
  resetVisemeToNone s = s
  ∧ ∀ d : N,
      vars (elapse d s) = vars s ∧ doc (elapse d s) = doc s
      ∧ viseme_value (elapse d s) = viseme_value s
      ∧ readout (elapse d s) = readout s.
Proof.
  intros H. split; [by apply resetVisemeToNone_without_none|].
  intros d. unfold elapse. cbn. by rewrite fire_all_without_none.
Qed.

Lemma reset_without_none_changes_nothing_witness :
  let s := keydown "1" (demo ["AA"; "E"; "O"]) in
  resetVisemeToNone s = s
  ∧ ∀ d : N,
      vars (elapse d s) = vars s ∧ doc (elapse d s) = doc s
      ∧ viseme_value (elapse d s) = viseme_value s
      ∧ readout (elapse d s) = readout s.
Proof.
  apply reset_without_none_changes_nothing.
  apply (bool_decide_unpack _). vm_compute. exact I.
Defined.

(** *** Activating a button *)

Lemma button_of_label s j X :
  control_inv s → currentEnumValues (vars s) !! j = Some X →
  ∃ button p,
    enum_buttons (doc s) !! j = Some button ∧ dataset_value button = X
    ∧ target button = p ∧ visemeProperty (vars s) = Some p
    ∧ is_Some (read_enum p s) ∧ is_Some (readout s).
Proof.
  intros (Hd & Ht & Hb) HX.
  rewrite <- Hd, list_lookup_fmap in HX.
  destruct (enum_buttons (doc s) !! j) as [button|] eqn:Hj; [|done].
  injection HX as HX.
  destruct Hb as (p & Hp & Hv & Hr).
  { rewrite <- Hd. intros Hnil. apply fmap_nil_inv in Hnil.
    by rewrite Hnil in Hj. }
  exists button, p. repeat split; try done.
  rewrite Forall_forall in Ht.
  specialize (Ht (target button)). rewrite Hp in Ht.
  assert (Some p = Some (target button)) as [= ->]; [|done].
  apply Ht, list_elem_of_fmap. exists button. split; [done|].
  by eapply list_elem_of_lookup_2.
Qed.

Lemma click_buttons j s button :
  enum_buttons (doc s) !! j = Some button →
  enum_buttons (doc (click j s))
  = imap (λ k btn, set_active (bool_decide (k = j)) btn) (enum_buttons (doc s)).
Proof.
  intros Hj. unfold click. rewrite Hj.
  match goal with
  | |- context [updateCurrentDisplay ?n ?v ?t] =>
      destruct (updateCurrentDisplay_frame n v t) as (_ & _ & ->)
  end. done.
Qed.

Lemma updateCurrentDisplay_readout value s :
  is_Some (readout s) →
  readout (updateCurrentDisplay "visemes" value s) = Some (current_html value).
Proof.
  intros [html Hr]. unfold updateCurrentDisplay, readout in *.
  change ("current-" +:+ "visemes") with "current-visemes".
  rewrite Hr. cbn. by rewrite lookup_insert_eq.
Qed.


Lemma plain_label s j X :
  plain_labels s → currentEnumValues (vars s) !! j = Some X →
  is_plain X = true.
Proof. intros Hp HX. exact (proj1 (Forall_lookup _ _) Hp j X HX). Qed.





(** *** The value a key press or a click leaves *)

Lemma viseme_value_frame s s' :
  visemeProperty (vars s') = visemeProperty (vars s) →
  viewModelInstance (vars s') = viewModelInstance (vars s) →
  viseme_value s' = viseme_value s.
Proof. unfold viseme_value, read_enum. by intros -> ->. Qed.

Lemma write_enum_value p value s :
  visemeProperty (vars s) = Some p → is_Some (read_enum p s) →
  viseme_value (write_enum p value s) = Some value.
Proof.
  unfold viseme_value, read_enum, write_enum. cbn. intros -> [old Ho]. cbn.
  destruct (viewModelInstance (vars s)); [|done]. cbn.
  by rewrite lookup_insert_eq.
Qed.

Lemma applyViseme_value p value s :
  visemeProperty (vars s) = Some p → is_Some (read_enum p s) →
  viseme_value (applyViseme p value s) = Some value.
Proof.
  intros Hp Hv. rewrite <- (write_enum_value p value s Hp Hv).
  unfold applyViseme.
  destruct (updateVisemeUI_frame value (write_enum p value s)) as [Hvars _].
  apply viseme_value_frame; by rewrite Hvars.
Qed.

Lemma click_value j s button p :
  enum_buttons (doc s) !! j = Some button → target button = p →
  visemeProperty (vars s) = Some p → is_Some (read_enum p s) →
  viseme_value (click j s) = Some (dataset_value button).
Proof.
  intros Hj <- Hp Hv.
  rewrite <- (write_enum_value (target button) (dataset_value button) s Hp Hv).
  unfold click. rewrite Hj.
  match goal with
  | |- context [updateCurrentDisplay ?n ?v ?t] =>
      destruct (updateCurrentDisplay_frame n v t) as (Hvars & _ & _)
  end.
  apply viseme_value_frame; by rewrite Hvars.
Qed.

(** The two paths side by side.  In any state the page can reach, a key from
    1 to 9 within the declared labels goes through lines 192-195, then
    199-201, then 202: the pending reset task is cancelled first (nothing is
    left in the queue), then the label is applied, then a reset task is
    scheduled 1000 ms ahead, which is then the only task, under a handle no
    earlier task had.  A click on an enum button applies the label of the
    button and calls [setTimeout] not at all. *)
Theorem keypress_replaces_reset_click_schedules_none ph s :
  reachable ph s →
  (∀ key (k : Z) value,
     parseInt key = Some k → (1 ≤ k ≤ 9)%Z →
     currentEnumValues (vars s) !! Z.to_nat (k - 1) = Some value →
     ∃ p, visemeProperty (vars s) = Some p
       ∧ keydown key s = scheduleReset (applyViseme p value (cancelReset s))
       ∧ pending (timers (env (cancelReset s))) = []
       ∧ viseme_value (keydown key s) = Some value
       ∧ pending (timers (env (keydown key s)))
         = [(next_handle (timers (env s)), (now (timers (env s)) + 1000)%N)]
       ∧ resetTimer (vars (keydown key s))
         = Some (next_handle (timers (env s)))
       ∧ Forall (λ task, task.1 ≠ next_handle (timers (env s)))
           (pending (timers (env s))))
  ∧ (∀ j button,
       enum_buttons (doc s) !! j = Some button →
       viseme_value (click j s) = Some (dataset_value button)
       ∧ next_handle (timers (env (click j s))) = next_handle (timers (env s))).
Proof.
  intros Hr. destruct (reachable_inv ph s Hr) as (Ht & Hc & _). split.
  - intros key k value Hk Hrange Hv.
    destruct (button_of_label s _ value Hc Hv)
      as (button & p & _ & _ & _ & Hp & Hval & _).
    exists p. split; [done|].
    rewrite (keydown_in_range key s k value p Hk Hrange Hv Hp).
    destruct (cancelReset_clears s Ht) as (Hq & _).
    destruct (scheduleReset_after_cancel p value s Ht) as (-> & -> & _).
    repeat split; try done.
    + destruct (cancelReset_frame s) as (_ & Hp' & _ & Hvm').
      rewrite (viseme_value_frame (applyViseme p value (cancelReset s)));
        [|done..].
      apply applyViseme_value; [by rewrite Hp'|].
      unfold read_enum in *. by rewrite Hvm'.
    + destruct Ht as [_ Hall].
      eapply Forall_impl; [apply Hall|]. cbn. intros task [_ Hlt] Heq.
      rewrite Heq in Hlt. lia.
  - intros j button Hj.
    assert (currentEnumValues (vars s) !! j = Some (dataset_value button)) as HX.
    { destruct Hc as (<- & _). by rewrite list_lookup_fmap, Hj. }
    destruct (button_of_label s j _ Hc HX)
      as (button' & p & Hj' & _ & Htg & Hp & Hval & _).
    rewrite Hj in Hj'. injection Hj' as <-.
    split; [by eapply click_value|].
    by destruct (click_frame j s) as [-> _].
Qed.

Lemma keypress_replaces_reset_click_schedules_none_witness :
  let s := keydown "2" (demo ["none"; "AA"; "E"; "O"]) in
  viseme_value (keydown "4" s) = Some "O"
  ∧ pending (timers (env (keydown "4" s))) = [(2%positive, 1000%N)]
  ∧ viseme_value (click 2 s) = Some "E"
  ∧ next_handle (timers (env (click 2 s))) = 2%positive.
Proof.
  pose proof (keypress_replaces_reset_click_schedules_none Loaded
                (keydown "2" (demo ["none"; "AA"; "E"; "O"]))) as H.
  destruct H as [Hkey Hclick].
  { apply (reach_event Loaded _ (KeyDown "2")), demo_reachable. }
  destruct (Hkey "4" 4%Z "O") as (p & _ & _ & _ & Hv & Hq & _);
    [reflexivity|lia|reflexivity|].
  destruct (Hclick 2%nat (mkButton "E" (Some 3%nat) "E" false "visemes"))
    as [Hc Hn]; [reflexivity|].
  exact (conj Hv (conj Hq (conj Hc Hn))).
Defined.

(** A click while a value is held: the label is applied and no reset task is
    scheduled. *)
Lemma click_schedules_no_reset :
  let s := click 1 (demo ["none"; "AA"; "E"; "O"]) in
  viseme_value s = Some "AA"
  ∧ viseme_value (click 2 s) = Some "E"
  ∧ pending (timers (env (click 2 s))) = [].
Proof. vm_compute. done. Qed.

(** A click does not touch the queue either: the reset task of an earlier
    key press stays, and reverts the clicked label when it falls due. *)
Lemma click_leaves_pending_reset :
  let s := click 2 (keydown "2" (demo ["none"; "AA"; "E"; "O"])) in
  viseme_value s = Some "E"
  ∧ pending (timers (env s)) = [(1%positive, 1000%N)]
  ∧ viseme_value (elapse 1000 s) = Some "none".
Proof. vm_compute. done. Qed.

(** C2, at an input where it fails. The labels none, AA, E, O are loaded and
    key 2 is pressed: AA is held and the reset task 1 is pending, due at
    1000 ms.  At 600 ms the button E is clicked.  The claim has the pending
    task cancelled and a fresh one scheduled 1000 ms ahead, as the key path
    does (key 3 in place of the click leaves the one task 2, due at 1600 ms).
    The click listener (lines 146-151) applies E and does neither: the timers
    are as they were, [resetTimer] still names task 1, no handle has been
    handed out, and at 1000 ms, 400 ms after the click, the stale task sets
    the value back to none.  With nothing pending, a click schedules no reset
    at all and the clicked label stays for good. *)
Theorem click_neither_cancels_nor_schedules :
  let s0 := demo ["none"; "AA"; "E"; "O"] in
  let s1 := elapse 600 (keydown "2" s0) in
  let s2 := click 2 s1 in
  viseme_value s1 = Some "AA"
  ∧ pending (timers (env s1)) = [(1%positive, 1000%N)]
  ∧ viseme_value s2 = Some "E"
  ∧ timers (env s2) = timers (env s1)
  ∧ resetTimer (vars s2) = Some 1%positive
  ∧ viseme_value (elapse 399 s2) = Some "E"
  ∧ viseme_value (elapse 400 s2) = Some "none"
  ∧ pending (timers (env (keydown "3" s1))) = [(2%positive, 1600%N)]
  ∧ viseme_value (keydown "3" s1) = Some "E"
  ∧ pending (timers (env (click 2 s0))) = []
  ∧ viseme_value (elapse 5000 (click 2 s0)) = Some "E".
Proof. vm_compute. done. Qed.

(** *** The scenario: labels none, AA, E, O *)

(** Key 2 does not set E, as the claim C3 as stated has it. *)
Lemma scenario_key_2_is_not_E :
  viseme_value (keydown "2" (demo ["none"; "AA"; "E"; "O"])) ≠ Some "E".
Proof. vm_compute. discriminate. Qed.

(** C3, as amended. With the labels none, AA, E, O loaded, key 2 sets the
    value AA, the label at position 1, the readout shows AA and the button AA
    alone is active (it is key 3 that sets E); 999 ms later AA is still held;
    after 1000 ms with no further input the value is none, the readout shows
    none and the button none alone is active. *)
Theorem scenario_key_2_then_reset :
  let s0 := demo ["none"; "AA"; "E"; "O"] in
  let s1 := keydown "2" s0 in
  viseme_value s1 = Some "AA"
  ∧ readout s1 = Some (current_html "AA")
  ∧ active_values s1 = ["AA"]
  ∧ viseme_value (keydown "3" s0) = Some "E"
  ∧ viseme_value (elapse 999 s1) = Some "AA"
  ∧ viseme_value (elapse 1000 s1) = Some "none"
  ∧ readout (elapse 1000 s1) = Some (current_html "none")
  ∧ active_values (elapse 1000 s1) = ["none"].
Proof. vm_compute. done. Qed.

(** *** A key beyond the labels *)

(** The key of the digit [i + 1]. *)
Lemma parseInt_digit_key (i : nat) :
  (i < 9)%nat → parseInt (digit_key i) = Some (Z.of_nat i + 1)%Z.
Proof.
  intros Hi. do 9 (destruct i as [|i]; [reflexivity|]). lia.
Qed.

(** The part of C1 that holds: key [i + 1] with [i] within the labels sets
    the label at [i] and leaves one reset task, the new one. *)
Lemma keydown_digit_in_range ph s (i : nat) value :
  reachable ph s → (i < 9)%nat →
  currentEnumValues (vars s) !! i = Some value →
  viseme_value (keydown (digit_key i) s) = Some value
  ∧ readout (keydown (digit_key i) s) = Some (current_html value)
  ∧ pending (timers (env (keydown (digit_key i) s)))
    = [(next_handle (timers (env s)), (now (timers (env s)) + 1000)%N)].
Proof.
  intros Hr Hi Hv. destruct (reachable_inv ph s Hr) as (Ht & Hc & _).
  destruct (button_of_label s i value Hc Hv)
    as (button & p & _ & _ & _ & Hp & Hval & Hro).
  assert (Z.to_nat (Z.of_nat i + 1 - 1) = i) as Hidx by lia.
  rewrite (keydown_in_range (digit_key i) s (Z.of_nat i + 1) value p);
    [|by apply parseInt_digit_key|lia|by rewrite Hidx|done].
  destruct (scheduleReset_after_cancel p value s Ht) as (-> & _).
  destruct (cancelReset_frame s) as (Hd' & Hp' & _ & Hvm').
  repeat split.
  - rewrite (viseme_value_frame (applyViseme p value (cancelReset s)));
      [|done..].
    apply applyViseme_value; [by rewrite Hp'|].
    unfold read_enum in *. by rewrite Hvm'.
  - unfold readout, scheduleReset, applyViseme, updateVisemeUI. cbn.
    apply (updateCurrentDisplay_readout value
             (write_enum p value (cancelReset s))).
    unfold readout in *. cbn. by rewrite Hd'.
Qed.

(** C1 at an input where it fails. With the labels none, AA, E, O and AA held
    after key 2, its reset pending, key 9 (position 8, beyond the four
    labels) is not a no-op: it cancels the reset task.  The value and the
    readout stay, and AA is then held for good. *)
Theorem keydown_out_of_range_cancels_reset :
  let s := keydown "2" (demo ["none"; "AA"; "E"; "O"]) in
  let s' := keydown (digit_key 8) s in
  viseme_value s = Some "AA"
  ∧ pending (timers (env s)) = [(1%positive, 1000%N)]
  ∧ resetTimer (vars s) = Some 1%positive
  ∧ s' ≠ s
  ∧ pending (timers (env s')) = []
  ∧ resetTimer (vars s') = None
  ∧ viseme_value s' = Some "AA"
  ∧ viseme_value (elapse 1000 s') = Some "AA"
  ∧ viseme_value (elapse 1000 s) = Some "none".
Proof.
  cbv zeta. repeat split; vm_compute; done.
Qed.

End VisemeProofs.

(** ** Properties of the second revision *)
Module GenericProofs.
Import Host Generic.

Implicit Types (s : State) (inputName : string).

(** On an array of inputs, a name none of them has is ignored by the three
    helpers. *)
Lemma helpers_ignore_unknown_names inputName inputs s (b : bool)
    (x : spec_float) :
  stateMachineInputs (vars s) = Some inputs →
  find_input inputName inputs = None →
  triggerInput inputName s = Returned s
  ∧ setBooleanInput inputName b s = Returned s
  ∧ setNumberInput inputName x s = Returned s.
Proof.
  intros Hi Hf.
  unfold triggerInput, setBooleanInput, setNumberInput, set_input.
  by rewrite Hi, Hf.
Qed.

(** C9 at an input where it fails. The file has no state machine of the
    configured name, so the runtime answers [undefined], which line 394
    stores; from then on every name is without a matching input, and each of
    the three helpers throws instead of returning. *)
Theorem helpers_throw_without_inputs :
  let s := onLoad None (initRive None (boot true None)) in
  stateMachineInputs (vars s) = None
  ∧ triggerInput "jump" s = Threw type_error
  ∧ setBooleanInput "open" true s = Threw type_error
  ∧ setNumberInput "speed" (S754_finite false 3 (-1)) s = Threw type_error.
Proof. by vm_compute. Qed.

End GenericProofs.

(** ** A failed load, in both revisions *)
Module LoadError.
Import Host.

(** The handler of the first revision leaves the placeholder as it was, where
    the claim C5 as stated has its text replaced by an error message. *)
Lemma viseme_load_error_keeps_placeholder :
  let s := Viseme.initRive (Viseme.boot Viseme.demo_page 0) in
  Viseme.placeholder (Viseme.doc (Viseme.onLoadError "404" s))
  = Some (mkPlaceholder "Loading..." EmptyString EmptyString).
Proof. reflexivity. Qed.

(** C5, as amended. When the load fails the cause is logged, the handler
    returns, and nothing is requested again, in both revisions.  The second
    revision also puts the error message, in red, in the placeholder if the
    page has one; the first revision (lines 42-50) leaves the document, the
    placeholder with it, as it was. *)
Theorem load_error_logged_not_retried (error : string) :
  (∀ s : Generic.State,
     let s' := Generic.onLoadError error s in
     Generic.console (Generic.env s')
     = (Generic.console (Generic.env s)
        ++ [LogError "Error loading Rive file:" error])%list
     ∧ Generic.asset_requests (Generic.env s')
       = Generic.asset_requests (Generic.env s)
     ∧ Generic.vars s' = Generic.vars s
     ∧ Generic.placeholder (Generic.doc s')
       = (λ p, mkPlaceholder Generic.load_error_html (ph_display p) "#ff6b6b")
           <$> Generic.placeholder (Generic.doc s)
     ∧ Generic.set_placeholder (Generic.placeholder (Generic.doc s))
         (Generic.doc s')
       = Generic.doc s)
  ∧ (∀ s : Viseme.State,
       let s' := Viseme.onLoadError error s in
       Viseme.console (Viseme.env s')
       = (Viseme.console (Viseme.env s)
          ++ [LogError "Error loading Rive file:" error])%list
       ∧ Viseme.asset_requests (Viseme.env s')
         = Viseme.asset_requests (Viseme.env s)
       ∧ Viseme.timers (Viseme.env s') = Viseme.timers (Viseme.env s)
       ∧ Viseme.vars s' = Viseme.vars s
       ∧ Viseme.doc s' = Viseme.doc s).
Proof.
  split.
  - intros [v [] e]. by repeat split.
  - intros s. by repeat split.
Qed.

End LoadError.

(** ** More on the first revision *)
Module VisemeMore.
Import Host Viseme VisemeProofs.

Implicit Types (s : State) (key p value : string) (j : nat).

(** *** Before the asset is loaded *)

(** X1. Until [onLoad] has run, or when it never will (no canvas, failed load),
    keys and clicks change nothing, and time passing moves the clock only. *)
Theorem inert_until_loaded ph s :
  reachable ph s → ph ≠ Loaded →
  (∀ key, keydown key s = s)
  ∧ (∀ j, click j s = s)
  ∧ (∀ d : N, vars (elapse d s) = vars s ∧ doc (elapse d s) = doc s).
Proof.
  intros Hr Hph. destruct (reachable_inv ph s Hr) as (_ & _ & Hu).
  destruct (Hu Hph) as [HL Hb]. repeat split.
  - intros key. by apply keydown_no_labels.
  - intros j. unfold click. by rewrite Hb.
  - unfold elapse. cbn. rewrite fire_all_without_none; [done|].
    cbn. rewrite HL. apply not_elem_of_nil.
  - unfold elapse. cbn. rewrite fire_all_without_none; [done|].
    cbn. rewrite HL. apply not_elem_of_nil.
Qed.

Lemma inert_until_loaded_witness :
  let s := onLoadError "404" (initRive (boot demo_page 0)) in
  (∀ key, keydown key s = s)
  ∧ (∀ j, click j s = s)
  ∧ (∀ d : N, vars (elapse d s) = vars s ∧ doc (elapse d s) = doc s).
Proof.
  apply (inert_until_loaded Stopped); [|discriminate].
  apply reach_load_error, (reach_init (boot demo_page 0)), reach_boot.
Defined.

(** *** The document after a key press, and after the reset *)

Lemma updateVisemeUI_doc value s :
  doc (updateVisemeUI value s) = show_value value (doc s).
Proof.
  unfold updateVisemeUI, updateCurrentDisplay, show_value.
  change ("current-" +:+ "visemes") with "current-visemes".
  by destruct (readouts (doc s) !! "current-visemes").
Qed.

Lemma applyViseme_doc p value s :
  doc (applyViseme p value s) = show_value value (doc s).
Proof. unfold applyViseme. by rewrite updateVisemeUI_doc. Qed.

Lemma applyViseme_vm p value s :
  viewModelInstance (vars (applyViseme p value s))
  = <[p := value]> <$> viewModelInstance (vars s).
Proof.
  unfold applyViseme.
  by destruct (updateVisemeUI_frame value (write_enum p value s)) as [-> _].
Qed.

Lemma set_active_twice (a a' : bool) (b : Button) :
  set_active a (set_active a' b) = set_active a b.
Proof. done. Qed.

Lemma show_value_twice value value' (d : Document) :
  show_value value (show_value value' d) = show_value value d.
Proof.
  destruct d as [cv ph es ro bs nd td bd]. unfold show_value. cbn.
  rewrite <- list_fmap_compose.
  destruct (ro !! "current-visemes") as [html|] eqn:Hro; cbn.
  - rewrite lookup_insert_eq, insert_insert_eq. done.
  - rewrite Hro. done.
Qed.

Lemma keydown_in_range_doc key s (k : Z) value p :
  parseInt key = Some k → (1 ≤ k ≤ 9)%Z →
  currentEnumValues (vars s) !! Z.to_nat (k - 1) = Some value →
  visemeProperty (vars s) = Some p →
  doc (keydown key s) = show_value value (doc s)
  ∧ viewModelInstance (vars (keydown key s))
    = <[p := value]> <$> viewModelInstance (vars s).
Proof.
  intros Hk Hr Hv Hp. rewrite (keydown_in_range key s k value p Hk Hr Hv Hp).
  destruct (cancelReset_frame s) as (Hd & _ & _ & Hvm).
  change (doc (scheduleReset ?t)) with (doc t).
  change (viewModelInstance (vars (scheduleReset ?t)))
    with (viewModelInstance (vars t)).
  by rewrite applyViseme_doc, applyViseme_vm, Hd, Hvm.
Qed.

(** *** Time passing, case by case *)

Lemma elapse_idle (d : N) s :
  pending (timers (env s)) = [] → elapse d s = moved_on d [] s.
Proof. intros H. unfold elapse, advance, moved_on. rewrite H. done. Qed.

Lemma elapse_before (d : N) s h (t : N) :
  pending (timers (env s)) = [(h, t)] → (now (timers (env s)) + d < t)%N →
  elapse d s = moved_on d [(h, t)] s.
Proof.
  intros H Hlt. unfold elapse, advance, moved_on. rewrite H.
  rewrite !filter_cons, !filter_nil. cbn.
  repeat case_decide; unfold is_due in *; cbn in *; try done; try lia; tauto.
Qed.

Lemma elapse_after (d : N) s h (t : N) :
  pending (timers (env s)) = [(h, t)] → (t ≤ now (timers (env s)) + d)%N →
  elapse d s = resetVisemeToNone (moved_on d [] s).
Proof.
  intros H Hle. unfold elapse, advance, moved_on. rewrite H.
  rewrite !filter_cons, !filter_nil. cbn.
  repeat case_decide; unfold is_due in *; cbn in *; try done; try lia; tauto.
Qed.

(** *** What one step does to the document and to the view model *)

Lemma resetVisemeToNone_with_none p s :
  visemeProperty (vars s) = Some p → "none" ∈ currentEnumValues (vars s) →
  resetVisemeToNone s = applyViseme p "none" s.
Proof.
  intros Hp Hn. unfold resetVisemeToNone. rewrite Hp.
  by rewrite bool_decide_eq_true_2.
Qed.

Lemma resetVisemeToNone_effect s :
  resetVisemeToNone s = s
  ∨ ∃ p, visemeProperty (vars s) = Some p
       ∧ "none" ∈ currentEnumValues (vars s)
       ∧ resetVisemeToNone s = applyViseme p "none" s.
Proof.
  unfold resetVisemeToNone.
  destruct (visemeProperty (vars s)) as [p|]; [|by left].
  case_bool_decide; [|by left]. right. by exists p.
Qed.

Lemma elapse_effect (d : N) s :
  timer_inv s →
  (doc (elapse d s) = doc s ∧ vars (elapse d s) = vars s)
  ∨ ∃ p, visemeProperty (vars s) = Some p
       ∧ "none" ∈ currentEnumValues (vars s)
       ∧ doc (elapse d s) = show_value "none" (doc s)
       ∧ viewModelInstance (vars (elapse d s))
         = <[p := "none"]> <$> viewModelInstance (vars s).
Proof.
  intros [Hlen _].
  destruct (pending (timers (env s))) as [|[h t] [|??]] eqn:Hq;
    [| |cbn in Hlen; lia].
  - left. by rewrite (elapse_idle d s Hq).
  - destruct (decide (t ≤ now (timers (env s)) + d)%N) as [Hle|Hgt].
    + rewrite (elapse_after d s h t Hq Hle).
      destruct (resetVisemeToNone_effect (moved_on d [] s))
        as [->|(p & Hp & Hn & ->)]; [by left|].
      right. exists p. by rewrite applyViseme_doc, applyViseme_vm.
    + left. rewrite (elapse_before d s h t Hq); [done|lia].
Qed.

Lemma keydown_effect key s : shows s (keydown key s).
Proof.
  unfold keydown.
  destruct (_ && _); [|by left].
  destruct (cancelReset_frame s) as (Hd & Hp & HL & Hvm). rewrite HL, Hp.
  destruct (_ !! _) as [value|] eqn:Hv; [|left; exact (conj Hd Hvm)].
  destruct (visemeProperty (vars s)) as [p|] eqn:Hp';
    [|left; exact (conj Hd Hvm)].
  right. exists p, value. split; [done|]. split.
  { by eapply list_elem_of_lookup_2. }
  change (doc (scheduleReset ?t)) with (doc t).
  change (viewModelInstance (vars (scheduleReset ?t)))
    with (viewModelInstance (vars t)).
  by rewrite applyViseme_doc, applyViseme_vm, Hd, Hvm.
Qed.

Lemma click_vm j s button :
  enum_buttons (doc s) !! j = Some button →
  viewModelInstance (vars (click j s))
  = <[target button := dataset_value button]> <$> viewModelInstance (vars s).
Proof.
  intros Hj. unfold click. rewrite Hj.
  match goal with
  | |- context [updateCurrentDisplay ?n ?v ?t] =>
      destruct (updateCurrentDisplay_frame n v t) as (-> & _ & _)
  end. done.
Qed.

(** *** The faces of the buttons *)

Lemma show_value_faces value (d : Document) :
  face <$> enum_buttons (show_value value d) = face <$> enum_buttons d.
Proof. unfold show_value. cbn. by rewrite <- list_fmap_compose. Qed.

Lemma resetVisemeToNone_faces s :
  face <$> enum_buttons (doc (resetVisemeToNone s))
  = face <$> enum_buttons (doc s).
Proof.
  destruct (resetVisemeToNone_effect s) as [->|(p & _ & _ & ->)]; [done|].
  by rewrite applyViseme_doc, show_value_faces.
Qed.

Lemma fire_all_faces {A} (due : list A) s :
  face <$> enum_buttons (doc (foldl (λ s _, resetVisemeToNone s) s due))
  = face <$> enum_buttons (doc s).
Proof.
  revert s. induction due as [|task due IH]; intros s; cbn; [done|].
  by rewrite IH, resetVisemeToNone_faces.
Qed.

Lemma step_faces e s :
  face <$> enum_buttons (doc (step e s)) = face <$> enum_buttons (doc s).
Proof.
  destruct e as [key|j|d]; cbn [step].
  - destruct (keydown_effect key s) as [[-> _]|(p & v & _ & _ & -> & _)];
      [done|apply show_value_faces].
  - destruct (enum_buttons (doc s) !! j) as [button|] eqn:Hj.
    + rewrite (click_buttons j s button Hj), fmap_imap.
      exact (imap_const face _).
    + unfold click. by rewrite Hj.
  - unfold elapse. cbn. by rewrite fire_all_faces.
Qed.

(** In every state of every run a button shows its label, and its badge is
    the one of its position. *)
Lemma reachable_faces ph s :
  reachable ph s →
  ∀ k b, enum_buttons (doc s) !! k = Some b →
         btn_text b = dataset_value b ∧ key_badge b = badge_at k.
Proof.
  induction 1 as [page t0|ph s e Hr IH|s Hr IH|s file Hr IH|s error Hr IH].
  - done.
  - intros k b Hb.
    assert (face <$> enum_buttons (doc (step e s)) !! k = Some (face b)) as Hf
      by (by rewrite Hb).
    rewrite <- list_lookup_fmap, step_faces, list_lookup_fmap in Hf.
    destruct (enum_buttons (doc s) !! k) as [b0|] eqn:Hb0; [|done].
    destruct (IH k b0 Hb0) as [Ht Hk]. cbn in Hf. unfold face in Hf.
    injection Hf as Hd Hbadge Htext _. split; congruence.
  - intros k b. unfold initRive. destruct (canvas (doc s)); apply IH.
  - destruct (reachable_inv _ _ Hr) as (_ & _ & Hu).
    destruct Hu as [_ Hb0]; [done|].
    intros k b. unfold onLoad. cbn.
    destruct (rive_viewModelInstance file) as [vm|]; cbn;
      [|rewrite Hb0; done].
    unfold setupViewModelControls. cbn.
    destruct (find_visemes vm) as [p|]; cbn; [|rewrite Hb0; done].
    rewrite Hb0. cbn. rewrite list_lookup_imap.
    destruct (_ !! k) as [value|]; [|done]. cbn. by intros [= <-].
  - apply IH.
Qed.

(** *** The grid *)

(** What a button shows, where the labels read as text. *)
Lemma grid_faces ph s :
  reachable ph s → plain_labels s →
  ∀ k b, enum_buttons (doc s) !! k = Some b →
    text_in "btn-text" (button_html b) = Some (dataset_value b)
    ∧ text_in "key-badge" (button_html b) = pretty <$> badge_at k.
Proof.
  intros Hr Hplain k b Hb.
  destruct (reachable_inv ph s Hr) as (_ & (Hd & _) & _).
  destruct (reachable_faces ph s Hr k b Hb) as [Htext Hbadge].
  assert (currentEnumValues (vars s) !! k = Some (dataset_value b)) as Hk
    by (by rewrite <- Hd, list_lookup_fmap, Hb).
  pose proof (plain_label s k _ Hplain Hk) as Hpk. rewrite <- Htext in Hpk.
  destruct (button_text b k Hbadge Hpk) as [Hshown Hshown_badge].
  by rewrite Htext in Hshown; rewrite Hbadge in Hshown_badge.
Qed.


(** X2. In every state the page can reach in which no declared label holds
    markup, the grid has one button per declared label, in the order of the
    labels; the button at position [k] carries the label at [k] as its value,
    shows it as its text, shows the badge [k + 1] if it is one of the first
    nine and has no badge otherwise, and its listener writes the property that
    [visemeProperty] holds. *)
Theorem grid_follows_labels ph s :
  reachable ph s → plain_labels s →
  length (enum_buttons (doc s)) = length (currentEnumValues (vars s))
  ∧ ∀ k b, enum_buttons (doc s) !! k = Some b →
      currentEnumValues (vars s) !! k = Some (dataset_value b)
      ∧ text_in "btn-text" (button_html b) = Some (dataset_value b)
      ∧ key_badge b = (if (k <? 9)%nat then Some (k + 1)%nat else None)
      ∧ text_in "key-badge" (button_html b)
        = (if (k <? 9)%nat then Some (pretty (k + 1)%nat) else None)
      ∧ visemeProperty (vars s) = Some (target b).
Proof.
  intros Hr Hplain.
  destruct (reachable_inv ph s Hr) as (_ & (Hd & Ht & _) & _).
  split; [by rewrite <- Hd, length_fmap|].
  intros k b Hb. destruct (reachable_faces ph s Hr k b Hb) as [Htext Hbadge].
  assert (currentEnumValues (vars s) !! k = Some (dataset_value b)) as Hk
    by (by rewrite <- Hd, list_lookup_fmap, Hb).
  pose proof (plain_label s k _ Hplain Hk) as Hpk. rewrite <- Htext in Hpk.
  destruct (button_text b k Hbadge Hpk) as [Hshown Hshown_badge].
  rewrite Htext in Hshown. rewrite Hbadge in Hshown_badge.
  split_and!; try done.
  - rewrite Hshown_badge. unfold badge_at. by destruct (k <? 9)%nat.
  - rewrite Forall_forall in Ht. apply Ht, list_elem_of_fmap.
    exists b. split; [done|]. by eapply list_elem_of_lookup_2.
Qed.

Lemma grid_follows_labels_witness :
  let s := click 3 (keydown "2" (demo ["none"; "AA"; "E"; "O"])) in
  length (enum_buttons (doc s)) = length (currentEnumValues (vars s))
  ∧ ∀ k b, enum_buttons (doc s) !! k = Some b →
      currentEnumValues (vars s) !! k = Some (dataset_value b)
      ∧ text_in "btn-text" (button_html b) = Some (dataset_value b)
      ∧ key_badge b = (if (k <? 9)%nat then Some (k + 1)%nat else None)
      ∧ text_in "key-badge" (button_html b)
        = (if (k <? 9)%nat then Some (pretty (k + 1)%nat) else None)
      ∧ visemeProperty (vars s) = Some (target b).
Proof.
  apply (grid_follows_labels Loaded).
  - apply (reach_event Loaded _ (Click 3)),
      (reach_event Loaded _ (KeyDown "2")), demo_reachable.
  - apply (bool_decide_unpack _). vm_compute. exact I.
Defined.

(** X3. The number on a badge is the key that selects the button: in a state
    the page can reach in which no declared label holds markup, where a button
    carries the badge [n], it is at position [n - 1] and shows [n], and the
    key of the digit [n] sets the label of that button, makes the readout show
    it and leaves one reset task, due 1000 ms later. *)
Theorem badge_is_the_key ph s (k n : nat) b :
  reachable ph s → plain_labels s →
  enum_buttons (doc s) !! k = Some b → key_badge b = Some n →
  n = S k
  ∧ text_in "key-badge" (button_html b) = Some (pretty n)
  ∧ viseme_value (keydown (digit_key k) s) = Some (dataset_value b)
  ∧ readout_text (keydown (digit_key k) s) = Some (dataset_value b)
  ∧ pending (timers (env (keydown (digit_key k) s)))
    = [(next_handle (timers (env s)), (now (timers (env s)) + 1000)%N)].
Proof.
  intros Hr Hplain Hb Hn.
  destruct (reachable_faces ph s Hr k b Hb) as [Htext Hbadge].
  destruct (reachable_inv ph s Hr) as (_ & (Hd & _) & _).
  assert (currentEnumValues (vars s) !! k = Some (dataset_value b)) as Hk
    by (by rewrite <- Hd, list_lookup_fmap, Hb).
  pose proof (plain_label s k _ Hplain Hk) as Hpk.
  assert (is_plain (btn_text b) = true) as Hpt by (by rewrite Htext).
  destruct (button_text b k Hbadge Hpt) as [_ Hshown].
  rewrite Hn in Hshown, Hbadge. unfold badge_at in Hbadge.
  destruct (k <? 9)%nat eqn:Hlt; [|done]. apply Nat.ltb_lt in Hlt.
  injection Hbadge as ->.
  destruct (keydown_digit_in_range ph s k _ Hr Hlt Hk) as (Hv & Hro & Hq).
  split_and!; try done; [lia|].
  unfold readout_text. rewrite Hro. cbn. by apply shown_current_html.
Qed.

Lemma badge_is_the_key_witness :
  let s := demo ["none"; "AA"; "E"; "O"] in
  let b := mkButton "E" (Some 3%nat) "E" false "visemes" in
  3%nat = 3%nat
  ∧ text_in "key-badge" (button_html b) = Some "3"
  ∧ viseme_value (keydown (digit_key 2) s) = Some "E"
  ∧ readout_text (keydown (digit_key 2) s) = Some "E"
  ∧ pending (timers (env (keydown (digit_key 2) s)))
    = [(next_handle (timers (env s)), (now (timers (env s)) + 1000)%N)].
Proof.
  refine (badge_is_the_key Loaded (demo ["none"; "AA"; "E"; "O"]) 2 3
            (mkButton "E" (Some 3%nat) "E" false "visemes")
            (demo_reachable _) _ eq_refl eq_refl).
  apply (bool_decide_unpack _). vm_compute. exact I.
Defined.

(** *** A key press, then time *)

Lemma after_keydown ph s key (k : Z) value :
  reachable ph s →
  parseInt key = Some k → (1 ≤ k ≤ 9)%Z →
  currentEnumValues (vars s) !! Z.to_nat (k - 1) = Some value →
  ∃ p, visemeProperty (vars s) = Some p
    ∧ is_Some (read_enum p s)
    ∧ doc (keydown key s) = show_value value (doc s)
    ∧ viewModelInstance (vars (keydown key s))
      = <[p := value]> <$> viewModelInstance (vars s)
    ∧ visemeProperty (vars (keydown key s)) = Some p
    ∧ currentEnumValues (vars (keydown key s)) = currentEnumValues (vars s)
    ∧ pending (timers (env (keydown key s)))
      = [(next_handle (timers (env s)), (now (timers (env s)) + 1000)%N)]
    ∧ next_handle (timers (env (keydown key s)))
      = Pos.succ (next_handle (timers (env s)))
    ∧ now (timers (env (keydown key s))) = now (timers (env s)).
Proof.
  intros Hr Hk Hrange Hv. destruct (reachable_inv ph s Hr) as (Ht & Hc & _).
  destruct (button_of_label s _ value Hc Hv)
    as (button & p & _ & _ & _ & Hp & Hval & _).
  exists p. split; [done|]. split; [done|].
  destruct (keydown_in_range_doc key s k value p Hk Hrange Hv Hp) as [-> ->].
  destruct (keydown_shape key s) as (-> & -> & _).
  rewrite (keydown_in_range key s k value p Hk Hrange Hv Hp).
  destruct (scheduleReset_after_cancel p value s Ht) as (-> & _ & -> & ->).
  done.
Qed.

(** X4. After a key from 1 to 9 within the labels, the label is held for a
    second: for less than 1000 ms nothing but the clock moves; from 1000 ms
    on the reset task has run and left the queue empty, and where "none" is a
    declared label the value is "none" and the document shows "none". *)
Theorem held_for_a_second ph s key (k : Z) value :
  reachable ph s →
  parseInt key = Some k → (1 ≤ k ≤ 9)%Z →
  currentEnumValues (vars s) !! Z.to_nat (k - 1) = Some value →
  let s1 := keydown key s in
  viseme_value s1 = Some value
  ∧ (∀ d : N, (d < 1000)%N →
       vars (elapse d s1) = vars s1 ∧ doc (elapse d s1) = doc s1
       ∧ pending (timers (env (elapse d s1))) = pending (timers (env s1)))
  ∧ (∀ d : N, (1000 ≤ d)%N →
       pending (timers (env (elapse d s1))) = []
       ∧ ("none" ∈ currentEnumValues (vars s) →
          viseme_value (elapse d s1) = Some "none"
          ∧ doc (elapse d s1) = show_value "none" (doc s1))).
Proof.
  intros Hr Hk Hrange Hv s1.
  destruct (after_keydown ph s key k value Hr Hk Hrange Hv)
    as (p & Hp & Hval & Hdoc & Hvm & Hp1 & HL1 & Hq & Hn & Hnow).
  fold s1 in Hdoc, Hvm, Hp1, HL1, Hq, Hn, Hnow.
  assert (is_Some (read_enum p s1)) as Hval1.
  { unfold read_enum in *. rewrite Hvm.
    destruct (viewModelInstance (vars s)) as [vm|]; cbn in *; [|done].
    rewrite lookup_insert_eq. eauto. }
  split; [|split].
  - unfold viseme_value, read_enum in *. rewrite Hp1, Hvm. cbn.
    destruct (viewModelInstance (vars s)) as [vm|]; cbn in *;
      [|by destruct Hval].
    by rewrite lookup_insert_eq.
  - intros d Hd. rewrite (elapse_before d s1 _ _ Hq) by lia. by rewrite Hq.
  - intros d Hd. rewrite (elapse_after d s1 _ _ Hq) by lia.
    destruct (resetVisemeToNone_frame (moved_on d [] s1)) as (-> & _).
    split; [done|]. intros Hnone.
    rewrite (resetVisemeToNone_with_none p); [|done|by cbn; rewrite HL1].
    split; [|by rewrite applyViseme_doc].
    by apply applyViseme_value.
Qed.

Lemma held_for_a_second_witness :
  let s1 := keydown "3" (demo ["none"; "AA"; "E"; "O"]) in
  viseme_value s1 = Some "E"
  ∧ (∀ d : N, (d < 1000)%N →
       vars (elapse d s1) = vars s1 ∧ doc (elapse d s1) = doc s1
       ∧ pending (timers (env (elapse d s1))) = pending (timers (env s1)))
  ∧ (∀ d : N, (1000 ≤ d)%N →
       pending (timers (env (elapse d s1))) = []
       ∧ ("none" ∈ ["none"; "AA"; "E"; "O"] →
          viseme_value (elapse d s1) = Some "none"
          ∧ doc (elapse d s1) = show_value "none" (doc s1))).
Proof.
  refine (held_for_a_second Loaded (demo ["none"; "AA"; "E"; "O"]) "3" 3 "E"
            (demo_reachable _) eq_refl _ eq_refl).
  lia.
Defined.

(** *** Two key presses *)

Lemma insert_twice_vm p value value' (vm : option (gmap string string)) :
  <[p := value]> <$> (<[p := value']> <$> vm) = <[p := value]> <$> vm.
Proof. destruct vm as [m|]; cbn; [|done]. by rewrite insert_insert_eq. Qed.

(** X5. The last key wins. After a key from 1 to 9 within the labels, any time
    [d] going by, and a second such key, the document and the view model are
    what the second key alone would have made them; one reset task is
    outstanding, due 1000 ms after the second key, whatever [d] was. *)
Theorem second_key_wins ph s key1 (k1 : Z) value1 (d : N) key2 (k2 : Z) value2 :
  reachable ph s →
  parseInt key1 = Some k1 → (1 ≤ k1 ≤ 9)%Z →
  currentEnumValues (vars s) !! Z.to_nat (k1 - 1) = Some value1 →
  parseInt key2 = Some k2 → (1 ≤ k2 ≤ 9)%Z →
  currentEnumValues (vars s) !! Z.to_nat (k2 - 1) = Some value2 →
  let s' := keydown key2 (elapse d (keydown key1 s)) in
  doc s' = doc (keydown key2 s)
  ∧ viewModelInstance (vars s') = viewModelInstance (vars (keydown key2 s))
  ∧ pending (timers (env s'))
    = [(Pos.succ (next_handle (timers (env s))),
        (now (timers (env s)) + d + 1000)%N)].
Proof.
  intros Hr Hk1 Hr1 Hv1 Hk2 Hr2 Hv2.
  destruct (after_keydown ph s key1 k1 value1 Hr Hk1 Hr1 Hv1)
    as (p & Hp & _ & Hdoc1 & Hvm1 & Hp1 & HL1 & Hq1 & Hn1 & Hnow1).
  destruct (after_keydown ph s key2 k2 value2 Hr Hk2 Hr2 Hv2)
    as (p' & Hp' & _ & Hdoc2 & Hvm2 & _).
  assert (p' = p) as -> by congruence.
  set (s1 := keydown key1 s) in *.
  assert (reachable ph s1) as Hrs1
    by apply (reach_event ph s (KeyDown key1)), Hr.
  destruct (reachable_inv ph s1 Hrs1) as (Ht1 & _).
  destruct (elapse_shape d s1) as (HLd & Hpd & _).
  destruct (elapse_timers d s1) as [Htd _].
  assert (doc (elapse d s1) = doc s1
          ∨ doc (elapse d s1) = show_value "none" (doc s1)) as Hdd.
  { destruct (elapse_effect d s1 Ht1) as [[Hd _]|(q & _ & _ & Hd & _)]; auto. }
  assert (viewModelInstance (vars (elapse d s1)) = viewModelInstance (vars s1)
          ∨ viewModelInstance (vars (elapse d s1))
            = <[p := "none"]> <$> viewModelInstance (vars s1)) as Hvd.
  { destruct (elapse_effect d s1 Ht1) as [[_ Hv]|(q & Hq' & _ & _ & Hv)].
    - left. by rewrite Hv.
    - right. rewrite Hv. congruence. }
  assert (now (timers (env (elapse d s1))) = (now (timers (env s)) + d)%N
          ∧ next_handle (timers (env (elapse d s1)))
            = Pos.succ (next_handle (timers (env s)))) as [Hnowd Hnd].
  { rewrite Htd. cbn. by rewrite Hnow1, Hn1. }
  remember (elapse d s1) as sd eqn:Hsd.
  assert (reachable ph sd) as Hrd.
  { rewrite Hsd. apply (reach_event ph s1 (Elapse d)), Hrs1. }
  destruct (after_keydown ph sd key2 k2 value2 Hrd Hk2 Hr2)
    as (p' & Hp'' & _ & Hdoc & Hvm & _ & _ & Hq & _).
  { by rewrite HLd, HL1. }
  assert (p' = p) as -> by congruence.
  cbv zeta. rewrite Hq, Hdoc, Hvm, Hdoc2, Hvm2, Hnowd, Hnd.
  split; [|split; [|done]].
  - destruct Hdd as [->| ->]; by rewrite Hdoc1, !show_value_twice.
  - destruct Hvd as [->| ->]; rewrite Hvm1; by rewrite !insert_twice_vm.
Qed.

Lemma second_key_wins_witness :
  let s := demo ["none"; "AA"; "E"; "O"] in
  let s' := keydown "4" (elapse 400 (keydown "2" s)) in
  doc s' = doc (keydown "4" s)
  ∧ viewModelInstance (vars s') = viewModelInstance (vars (keydown "4" s))
  ∧ pending (timers (env s'))
    = [(Pos.succ (next_handle (timers (env s))),
        (now (timers (env s)) + 400 + 1000)%N)].
Proof.
  refine (second_key_wins Loaded (demo ["none"; "AA"; "E"; "O"])
            "2" 2 "AA" 400 "4" 4 "O" (demo_reachable _)
            eq_refl _ eq_refl eq_refl _ eq_refl); lia.
Defined.

(** *** What is written, and where *)

Lemma step_writes ph s e :
  reachable ph s →
  viewModelInstance (vars (step e s)) = viewModelInstance (vars s)
  ∨ ∃ p value,
      visemeProperty (vars s) = Some p
      ∧ value ∈ currentEnumValues (vars s)
      ∧ viewModelInstance (vars (step e s))
        = <[p := value]> <$> viewModelInstance (vars s).
Proof.
  intros Hr. destruct (reachable_inv ph s Hr) as (Ht & Hc & _).
  destruct e as [key|j|d]; cbn [step].
  - destruct (keydown_effect key s) as [[_ ->]|(p & v & Hp & Hv & _ & ->)];
      [by left|]. right. by exists p, v.
  - destruct (enum_buttons (doc s) !! j) as [button|] eqn:Hj.
    + right. rewrite (click_vm j s button Hj).
      assert (currentEnumValues (vars s) !! j = Some (dataset_value button))
        as HX.
      { destruct Hc as (<- & _). by rewrite list_lookup_fmap, Hj. }
      destruct (button_of_label s j _ Hc HX)
        as (button' & p & Hj' & _ & Htg & Hp & _).
      rewrite Hj in Hj'. injection Hj' as <-. rewrite Htg.
      exists p, (dataset_value button).
      split; [done|]. split; [|done]. by eapply list_elem_of_lookup_2.
    + left. unfold click. by rewrite Hj.
  - destruct (elapse_effect d s Ht) as [[_ ->]|(p & Hp & Hn & _ & ->)];
      [by left|]. right. by exists p, "none".
Qed.

(** X6. In any state the page can reach, a key, a click or time passing writes
    nothing but the slot [visemeProperty] is bound to, every other slot of the
    view model reading as before; and the value of the property is afterwards
    what it was or one of the declared labels. *)
Theorem writes_labels_to_the_bound_slot ph s e :
  reachable ph s →
  (∀ q, visemeProperty (vars s) ≠ Some q →
        read_enum q (step e s) = read_enum q s)
  ∧ (viseme_value (step e s) = viseme_value s
     ∨ ∃ value, value ∈ currentEnumValues (vars s)
              ∧ viseme_value (step e s) = Some value).
Proof.
  intros Hr. destruct (step_shape e s) as (_ & Hp' & _).
  unfold viseme_value, read_enum. rewrite Hp'.
  destruct (step_writes ph s e Hr) as [->|(p & v & Hp & Hv & ->)];
    [split; [done|by left]|].
  split.
  - intros q Hq. destruct (viewModelInstance (vars s)) as [vm|]; cbn; [|done].
    rewrite lookup_insert_ne; [done|congruence].
  - rewrite Hp. cbn.
    destruct (viewModelInstance (vars s)) as [vm|]; cbn; [|by left].
    right. exists v. by rewrite lookup_insert_eq.
Qed.

Lemma writes_labels_to_the_bound_slot_witness :
  let s := keydown "2" (demo ["none"; "AA"; "E"; "O"]) in
  (∀ q, visemeProperty (vars s) ≠ Some q →
        read_enum q (step (Click 3) s) = read_enum q s)
  ∧ (viseme_value (step (Click 3) s) = viseme_value s
     ∨ ∃ value, value ∈ currentEnumValues (vars s)
              ∧ viseme_value (step (Click 3) s) = Some value).
Proof.
  apply (writes_labels_to_the_bound_slot Loaded
           (keydown "2" (demo ["none"; "AA"; "E"; "O"])) (Click 3)).
  apply (reach_event Loaded _ (KeyDown "2")), demo_reachable.
Defined.

(** *** Marks: key against click *)

(** X7. After a key from 1 to 9 within the labels, a button is marked exactly
    when its label is the one the key selected: with a label declared twice,
    both its buttons are marked. *)
Theorem key_marks_by_label ph s key (k : Z) value :
  reachable ph s →
  parseInt key = Some k → (1 ≤ k ≤ 9)%Z →
  currentEnumValues (vars s) !! Z.to_nat (k - 1) = Some value →
  ∀ i b, enum_buttons (doc (keydown key s)) !! i = Some b →
         active b = true ↔ dataset_value b = value.
Proof.
  intros Hr Hk Hrange Hv i b.
  destruct (after_keydown ph s key k value Hr Hk Hrange Hv)
    as (p & _ & _ & -> & _).
  unfold show_value. cbn. rewrite list_lookup_fmap.
  destruct (enum_buttons (doc s) !! i) as [b0|]; [|done]. cbn.
  intros [= <-]. cbn. apply bool_decide_eq_true.
Qed.

Lemma key_marks_by_label_witness :
  let third := mkButton "AA" (Some 3%nat) "AA" true "visemes" in
  enum_buttons (doc (keydown "1" (demo ["AA"; "E"; "AA"]))) !! 2%nat
  = Some third
  ∧ (active third = true ↔ dataset_value third = "AA").
Proof.
  intros third. split; [reflexivity|].
  refine (key_marks_by_label Loaded (demo ["AA"; "E"; "AA"]) "1" 1 "AA"
            (demo_reachable _) eq_refl _ eq_refl 2%nat third eq_refl).
  lia.
Defined.




(** *** What [onLoad] builds *)

Lemma onLoad_built s file vm p v :
  enum_buttons (doc s) = [] →
  rive_viewModelInstance file = Some vm →
  find_visemes vm = Some p → vm !! p = Some v →
  let s' := onLoad file s in
  visemeProperty (vars s') = Some p
  ∧ currentEnumValues (vars s') = lookup_enum_values "phonemes" file
  ∧ viseme_value s' = Some v
  ∧ readout s' = Some (current_html (or_none v))
  ∧ enum_buttons (doc s')
    = imap (make_button p v) (lookup_enum_values "phonemes" file).
Proof.
  intros Hb Hvm Hp Hv.
  unfold onLoad, setupViewModelControls, viseme_value, read_enum, readout.
  cbn. rewrite Hvm. cbn. rewrite Hp. cbn. rewrite Hb, Hv. cbn.
  by rewrite lookup_insert_eq.
Qed.

(** X9. When the asset has loaded with a view model that has the property, under
    either path, the labels are those of the file enum called phonemes, in any
    case of letters (none if there is no such enum), and nothing is written to
    the property.  Where neither those labels nor the value of the property
    hold markup, the readout shows that value, or "none" for an empty value,
    there is one button per label, and a button is marked exactly when its
    label is that value. *)
Theorem control_as_built s file vm p v :
  reachable Loading s →
  rive_viewModelInstance file = Some vm →
  find_visemes vm = Some p → vm !! p = Some v →
  let s' := onLoad file s in
  visemeProperty (vars s') = Some p
  ∧ currentEnumValues (vars s') = lookup_enum_values "phonemes" file
  ∧ viseme_value s' = Some v
  ∧ (is_plain v = true → plain_labels s' →
     readout_text s' = Some (or_none v)
     ∧ (dataset_value <$> enum_buttons (doc s'))
       = lookup_enum_values "phonemes" file
     ∧ ∀ k b, enum_buttons (doc s') !! k = Some b →
              (active b = true ↔ dataset_value b = v)
              ∧ text_in "btn-text" (button_html b) = Some (dataset_value b)).
Proof.
  intros Hr Hvm Hp Hv s'.
  assert (reachable Loaded s') as Hr' by (by apply reach_load).
  destruct (reachable_inv _ _ Hr) as (_ & _ & Hu).
  destruct Hu as [_ Hb]; [done|].
  destruct (onLoad_built s file vm p v Hb Hvm Hp Hv)
    as (Hprop & Hlabels & Hval & Hro & Hbtn).
  fold s' in Hprop, Hlabels, Hval, Hro, Hbtn.
  split_and!; try done.
  intros Hpv Hplain. split_and!.
  - unfold readout_text. rewrite Hro. cbn.
    apply shown_current_html. by destruct v.
  - rewrite Hbtn, fmap_imap.
    transitivity (id <$> lookup_enum_values "phonemes" file);
      [exact (imap_const id _)|apply list_fmap_id].
  - intros k b Hkb.
    destruct (grid_faces _ _ Hr' Hplain k b Hkb) as [Hshown _].
    split; [|done].
    rewrite Hbtn, list_lookup_imap in Hkb.
    destruct (_ !! k) as [value|]; [|done]. cbn in Hkb. injection Hkb as <-.
    cbn. rewrite bool_decide_eq_true. split; congruence.
Qed.

Lemma control_as_built_witness :
  let file :=
    mkRive (Some {[ "viseme/visemes" := "E" ]})
      (Some [mkDataEnum "Other" (Some ["x"]);
             mkDataEnum "PHONEMES" (Some ["none"; "AA"; "E"; "O"])]) in
  let s' := onLoad file (initRive (boot demo_page 0)) in
  visemeProperty (vars s') = Some "viseme/visemes"
  ∧ currentEnumValues (vars s') = lookup_enum_values "phonemes" file
  ∧ viseme_value s' = Some "E"
  ∧ readout_text s' = Some "E"
  ∧ (dataset_value <$> enum_buttons (doc s')) = ["none"; "AA"; "E"; "O"]
  ∧ active <$> enum_buttons (doc s') = [false; false; true; false].
Proof.
  intros file s'.
  destruct (control_as_built (initRive (boot demo_page 0)) file
              {[ "viseme/visemes" := "E" ]} "viseme/visemes" "E")
    as (H1 & H2 & H3 & H4); [|reflexivity..|].
  { apply (reach_init (boot demo_page 0)), reach_boot. }
  destruct H4 as (H5 & H6 & _); [reflexivity| |].
  { apply (bool_decide_unpack _). vm_compute. exact I. }
  split_and!; [exact H1|exact H2|exact H3|exact H5|exact H6|reflexivity].
Defined.

(** X10. Which slot [visemes] is bound to. With a view model, the direct path is
    taken if it has the property, whatever is under the nested path; failing
    that the nested path [viseme/visemes]; failing both, a warning is logged
    and no labels, buttons or readout are made.  In all three cases the
    numbers, triggers and booleans sections are hidden.  Without a view model
    the document and the console stay as they were. *)
Theorem visemes_path_resolution s file :
  (∀ vm, rive_viewModelInstance file = Some vm →
     let s' := onLoad file s in
     (is_Some (vm !! "visemes") → visemeProperty (vars s') = Some "visemes")
     ∧ (vm !! "visemes" = None → is_Some (vm !! "viseme/visemes") →
        visemeProperty (vars s') = Some "viseme/visemes")
     ∧ (vm !! "visemes" = None → vm !! "viseme/visemes" = None →
        visemeProperty (vars s') = None
        ∧ console (env s')
          = (console (env s)
             ++ [LogWarn "visemes property not found on View Model"])%list
        ∧ currentEnumValues (vars s') = currentEnumValues (vars s)
        ∧ enum_buttons (doc s') = enum_buttons (doc s)
        ∧ readouts (doc s') = readouts (doc s))
     ∧ numbers_display (doc s') = "none"
     ∧ triggers_display (doc s') = "none"
     ∧ booleans_display (doc s') = "none"
     ∧ ph_display <$> placeholder (doc s')
       = (λ _, "none") <$> placeholder (doc s))
  ∧ (rive_viewModelInstance file = None →
     doc (onLoad file s) = doc s ∧ env (onLoad file s) = env s
     ∧ visemeProperty (vars (onLoad file s)) = visemeProperty (vars s)
     ∧ currentEnumValues (vars (onLoad file s)) = currentEnumValues (vars s)).
Proof.
  split.
  - intros vm Hvm. unfold onLoad, setupViewModelControls. cbn.
    rewrite Hvm. cbn. unfold find_visemes, visemesPropertyName.
    change ("viseme/" +:+ "visemes") with "viseme/visemes".
    repeat case_decide; cbn; repeat split; intros;
      try done;
      try (by destruct (placeholder (doc s)));
      repeat match goal with
             | H : is_Some ?x, H' : ?x = None |- _ =>
                 rewrite H' in H; by destruct H
             | H : ¬ is_Some ?x, H' : is_Some ?x |- _ => by destruct H
             end.
  - intros Hvm. unfold onLoad. cbn. by rewrite Hvm.
Qed.

Lemma visemes_path_resolution_witness :
  let file :=
    mkRive (Some {[ "viseme/visemes" := "E"; "other" := "x" ]}) None in
  visemeProperty (vars (onLoad file (initRive (boot demo_page 0))))
  = Some "viseme/visemes".
Proof.
  intros file.
  destruct (visemes_path_resolution (initRive (boot demo_page 0)) file)
    as [H _].
  destruct (H {[ "viseme/visemes" := "E"; "other" := "x" ]} eq_refl)
    as (_ & Hnested & _).
  apply Hnested; [reflexivity|]. vm_compute. eauto.
Defined.

(** *** Which keys are shortcuts *)

Lemma parseInt_letter (c : ascii) (rest : string) :
  (65 ≤ byte_of c ≤ 90 ∨ 97 ≤ byte_of c ≤ 122)%N →
  parseInt (String c rest) = None.
Proof.
  intros Hc.
  destruct c as [[] [] [] [] [] [] [] []]; vm_compute in Hc;
    try (exfalso; destruct Hc as [[? ?]|[? ?]]; congruence);
    clear Hc; destruct rest as [|c2 [|c3 rest]]; reflexivity.
Qed.

Lemma trimStart_unfold (s : string) :
  trimStart s
  = match s with
    | EmptyString => s
    | String c1 s1 =>
        if is_ascii_white c1 then trimStart s1
        else
          match s1 with
          | EmptyString => s
          | String c2 s2 =>
              if is_white2 c1 c2 then trimStart s2
              else
                match s2 with
                | EmptyString => s
                | String c3 s3 =>
                    if is_white3 c1 c2 c3 then trimStart s3 else s
                end
          end
    end.
Proof. by destruct s. Qed.

(** What [trimStart] leaves of a string of characters outside ASCII is again
    such a string. *)
Lemma trimStart_non_ascii (n : nat) (key : string) :
  (String.length key ≤ n)%nat → non_ascii key = true →
  non_ascii (trimStart key) = true.
Proof.
  revert key. induction n as [|n IH]; intros key Hn Hkey.
  - destruct key; [done|cbn in Hn; lia].
  - rewrite trimStart_unfold.
    destruct key as [|c1 s1]; [done|].
    cbn [String.length] in Hn.
    assert (non_ascii s1 = true) as H1
      by (cbn in Hkey; by apply andb_true_iff in Hkey as [_ ?]).
    destruct (is_ascii_white c1); [apply IH; [lia|done]|].
    destruct s1 as [|c2 s2]; [done|].
    cbn [String.length] in Hn.
    assert (non_ascii s2 = true) as H2
      by (cbn in H1; by apply andb_true_iff in H1 as [_ ?]).
    destruct (is_white2 c1 c2); [apply IH; [lia|done]|].
    destruct s2 as [|c3 s3]; [done|].
    cbn [String.length] in Hn.
    assert (non_ascii s3 = true) as H3
      by (cbn in H2; by apply andb_true_iff in H2 as [_ ?]).
    destruct (is_white3 c1 c2 c3); [apply IH; [lia|done]|done].
Qed.

(** A string that starts outside ASCII has no digits to read. *)
Lemma no_digits_outside_ascii (c : ascii) (rest : string) :
  (128 <=? byte_of c)%N = true →
  (let '(sign, s1) := strip_sign (String c rest) in
   let '(r, s2) := strip_hex s1 in
   (λ n, sign * n)%Z <$> digits r None s2) = None.
Proof.
  intros Hc.
  destruct c as [[] [] [] [] [] [] [] []]; vm_compute in Hc;
    try discriminate; reflexivity.
Qed.

Lemma parseInt_non_ascii (key : string) :
  non_ascii key = true → parseInt key = None.
Proof.
  intros Hkey. unfold parseInt.
  pose proof (trimStart_non_ascii _ key (le_n _) Hkey) as Ht.
  destruct (trimStart key) as [|c rest]; [reflexivity|].
  cbn in Ht. apply andb_true_iff in Ht as [Hc _].
  by apply no_digits_outside_ascii.
Qed.

(** X11. Which keys are shortcuts.  A key of one ASCII character is a
    shortcut exactly when the character is one of the digits 1 to 9.  A key
    made of characters outside ASCII only, each of one or more bytes in UTF-8
    (é, ß, a full-width digit, a no-break space, ...), is no shortcut and
    changes nothing, in any state; nor does a key whose name starts with a
    letter (Enter, F1, ArrowUp, a, ...). *)
Theorem shortcut_keys :
  (∀ c : ascii,
     is_shortcut (parseInt (String c EmptyString)) = true
     ↔ (49 ≤ byte_of c ≤ 57)%N)
  ∧ (∀ (key : string) s,
       non_ascii key = true →
       is_shortcut (parseInt key) = false ∧ keydown key s = s)
  ∧ (∀ (c : ascii) (rest : string) s,
       (65 ≤ byte_of c ≤ 90 ∨ 97 ≤ byte_of c ≤ 122)%N →
       keydown (String c rest) s = s).
Proof.
  split_and!.
  - intros c. destruct c as [[] [] [] [] [] [] [] []]; vm_compute;
      split; intros H;
      first [discriminate|reflexivity|split; discriminate
            |destruct H as [Hlo Hhi]; congruence].
  - intros key s Hkey. unfold keydown.
    by rewrite (parseInt_non_ascii key Hkey).
  - intros c rest s Hc. unfold keydown. by rewrite parseInt_letter.
Qed.

Lemma shortcut_keys_witness :
  let s := keydown "2" (demo ["none"; "AA"; "E"; "O"]) in
  let e_acute := String (ascii_of_N 195) (String (ascii_of_N 169) EmptyString) in
  let wide_2 :=
    String (ascii_of_N 239)
      (String (ascii_of_N 188) (String (ascii_of_N 146) EmptyString)) in
  keydown "Enter" s = s
  ∧ keydown e_acute s = s
  ∧ keydown wide_2 s = s.
Proof.
  intros s e_acute wide_2.
  destruct shortcut_keys as (_ & Hhigh & Hletter).
  split_and!.
  - refine (Hletter "E"%char "nter" s _). left. vm_compute.
    split; discriminate.
  - exact (proj2 (Hhigh e_acute s eq_refl)).
  - exact (proj2 (Hhigh wide_2 s eq_refl)).
Defined.

End VisemeMore.

(** ** More on the second revision *)
Module GenericMore.
Import Host Generic.

Implicit Types (s : State) (inputName : string) (l : list (nat * Input)).

(** *** The controls built *)

Lemma add_control_effect (k : nat) (i : Input) s :
  let s' := add_control k i s in
  triggers_container (doc s')
  = (triggers_container (doc s) ++ controls_of 56 trigger_control [(k, i)])%list
  ∧ booleans_container (doc s')
    = (booleans_container (doc s) ++ controls_of 59 boolean_control [(k, i)])%list
  ∧ numbers_container (doc s')
    = (numbers_container (doc s) ++ controls_of 58 number_control [(k, i)])%list
  ∧ console (env s') = (console (env s) ++ unknown_lines [(k, i)])%list
  ∧ vars s' = vars s
  ∧ asset_requests (env s') = asset_requests (env s)
  ∧ placeholder (doc s') = placeholder (doc s)
  ∧ canvas (doc s') = canvas (doc s)
  ∧ triggers_display (doc s') = triggers_display (doc s)
  ∧ booleans_display (doc s') = booleans_display (doc s)
  ∧ numbers_display (doc s') = numbers_display (doc s).
Proof.
  unfold add_control, controls_of, unknown_lines, is_known.
  rewrite !filter_cons, !filter_nil. cbn.
  repeat case_decide; cbn; rewrite ?app_nil_r; split_and!; try done;
    try lia; exfalso; naive_solver lia.
Qed.

Lemma controls_of_app tag mk l1 l2 :
  controls_of tag mk (l1 ++ l2)
  = (controls_of tag mk l1 ++ controls_of tag mk l2)%list.
Proof. unfold controls_of. by rewrite filter_app, fmap_app. Qed.

Lemma unknown_lines_app l1 l2 :
  unknown_lines (l1 ++ l2) = (unknown_lines l1 ++ unknown_lines l2)%list.
Proof. unfold unknown_lines. by rewrite filter_app, fmap_app. Qed.

Lemma add_all_effect l s :
  let s' := add_all l s in
  triggers_container (doc s')
  = (triggers_container (doc s) ++ controls_of 56 trigger_control l)%list
  ∧ booleans_container (doc s')
    = (booleans_container (doc s) ++ controls_of 59 boolean_control l)%list
  ∧ numbers_container (doc s')
    = (numbers_container (doc s) ++ controls_of 58 number_control l)%list
  ∧ console (env s') = (console (env s) ++ unknown_lines l)%list
  ∧ vars s' = vars s
  ∧ asset_requests (env s') = asset_requests (env s)
  ∧ placeholder (doc s') = placeholder (doc s)
  ∧ canvas (doc s') = canvas (doc s)
  ∧ triggers_display (doc s') = triggers_display (doc s)
  ∧ booleans_display (doc s') = booleans_display (doc s)
  ∧ numbers_display (doc s') = numbers_display (doc s).
Proof.
  revert s. induction l as [|[k i] l IH]; intros s.
  - cbn. unfold controls_of, unknown_lines. cbn.
    by rewrite !app_nil_r.
  - change (add_all ((k, i) :: l) s) with (add_all l (add_control k i s)).
    cbv zeta.
    destruct (IH (add_control k i s))
      as (-> & -> & -> & -> & -> & -> & -> & -> & -> & -> & ->).
    destruct (add_control_effect k i s)
      as (-> & -> & -> & -> & -> & -> & -> & -> & -> & -> & ->).
    change ((k, i) :: l) with ([(k, i)] ++ l)%list.
    rewrite !controls_of_app, unknown_lines_app, !app_assoc. done.
Qed.

(** Every input gives one control or one log line. *)
Lemma controls_count l :
  (length (controls_of 56 trigger_control l)
   + length (controls_of 59 boolean_control l)
   + length (controls_of 58 number_control l)
   + length (unknown_lines l) = length l)%nat.
Proof.
  induction l as [|[k i] l IH]; [done|].
  unfold controls_of, unknown_lines, is_known in *.
  rewrite !filter_cons. cbn [fst snd].
  rewrite !length_fmap in *.
  repeat case_decide; cbn [length]; try lia; exfalso; naive_solver lia.
Qed.

Lemma has_type_controls tag mk (g : nat → nat) (inputs : list Input) :
  has_type tag inputs
  = match controls_of tag mk (imap (λ k i, (g k, i)) inputs) with
    | [] => false
    | _ => true
    end.
Proof.
  revert g. induction inputs as [|i inputs IH]; intros g; [done|].
  unfold controls_of, has_type. cbn [imap existsb].
  rewrite filter_cons. cbn [fst snd].
  case_decide.
  - by rewrite bool_decide_eq_true_2.
  - rewrite bool_decide_eq_false_2 by done. cbn [orb].
    apply (IH (g ∘ S)).
Qed.

Lemma setupControls_effect s (inputs : list Input) :
  riveInstance (vars s) = true → inputs ≠ [] →
  let s' := setupControls (Some inputs) s in
  let l := imap pair inputs in
  stateMachineInputs (vars s') = Some inputs
  ∧ triggers_container (doc s') = controls_of 56 trigger_control l
  ∧ booleans_container (doc s') = controls_of 59 boolean_control l
  ∧ numbers_container (doc s') = controls_of 58 number_control l
  ∧ console (env s')
    = (console (env s) ++ LogInfo "Found inputs:" :: unknown_lines l)%list
  ∧ triggers_display (doc s') = block_or_none (has_type 56 inputs)
  ∧ booleans_display (doc s') = block_or_none (has_type 59 inputs)
  ∧ numbers_display (doc s') = block_or_none (has_type 58 inputs)
  ∧ ph_display <$> placeholder (doc s')
    = (λ _, "none") <$> placeholder (doc s).
Proof.
  intros Hrive Hne. unfold setupControls. rewrite Hrive. cbn [negb].
  destruct inputs as [|i0 inputs0] eqn:Hin; [done|]. rewrite <- Hin. cbv zeta.
  match goal with
  | |- context [foldl _ ?t (imap pair inputs)] =>
      change (foldl _ t (imap pair inputs)) with (add_all (imap pair inputs) t);
      destruct (add_all_effect (imap pair inputs) t)
        as (Ht & Hb & Hn & Hc & Hv & _ & Hp & _)
  end.
  cbn in *. rewrite Ht, Hb, Hn, Hc, Hv, Hp. cbn.
  rewrite <- app_assoc. split_and!; try done.
  by destruct (placeholder (doc s)).
Qed.

(** X12. With the runtime constructed and a non-empty array of inputs, those of
    type 58 holding numbers, [setupControls] keeps the array and builds, in the order of the inputs,
    one button per input of type 56, one toggle per input of type 59 (checked
    as its value is truthy) and one slider per input of type 58; an input of
    any other type gives one log line and stops nothing, so that controls and
    lines together are as many as the inputs.  A section is displayed exactly
    when its container got a control. *)
Theorem one_control_per_known_input s (inputs : list Input) :
  riveInstance (vars s) = true → inputs ≠ [] → Forall holds_number inputs →
  let s' := setupControls (Some inputs) s in
  let l := imap pair inputs in
  stateMachineInputs (vars s') = Some inputs
  ∧ triggers_container (doc s') = controls_of 56 trigger_control l
  ∧ booleans_container (doc s') = controls_of 59 boolean_control l
  ∧ numbers_container (doc s') = controls_of 58 number_control l
  ∧ console (env s')
    = (console (env s) ++ LogInfo "Found inputs:" :: unknown_lines l)%list
  ∧ (length (triggers_container (doc s'))
     + length (booleans_container (doc s'))
     + length (numbers_container (doc s'))
     + length (unknown_lines l) = length inputs)%nat
  ∧ triggers_display (doc s')
    = match triggers_container (doc s') with [] => "none" | _ => "block" end
  ∧ booleans_display (doc s')
    = match booleans_container (doc s') with [] => "none" | _ => "block" end
  ∧ numbers_display (doc s')
    = match numbers_container (doc s') with [] => "none" | _ => "block" end.
Proof.
  intros Hrive Hne _.
  destruct (setupControls_effect s inputs Hrive Hne)
    as (Hv & Ht & Hb & Hn & Hc & Htd & Hbd & Hnd & _).
  cbv zeta. rewrite Hv, Ht, Hb, Hn, Hc, Htd, Hbd, Hnd.
  rewrite (has_type_controls 56 trigger_control id),
    (has_type_controls 59 boolean_control id),
    (has_type_controls 58 number_control id).
  split_and!; try done.
  - rewrite controls_count. apply length_imap.
  - by destruct (controls_of 56 _ _).
  - by destruct (controls_of 59 _ _).
  - by destruct (controls_of 58 _ _).
Qed.

Lemma one_control_per_known_input_witness :
  let inputs :=
    [mkInput "jump" 56 (VBool false) (Some 0%nat);
     mkInput "mood" 7 (VBool false) (Some 0%nat);
     mkInput "open" 59 (VBool true) (Some 0%nat);
     mkInput "speed" 58 (VNum (S754_finite false 3 (-1))) (Some 0%nat)] in
  let s' := setupControls (Some inputs) (initRive None (boot true None)) in
  triggers_container (doc s') = [TriggerButton "jump" 0]
  ∧ booleans_container (doc s') = [BooleanToggle "open" "bool-open" true 2]
  ∧ length (numbers_container (doc s')) = 1%nat
  ∧ length (console (env s')) = 2%nat.
Proof.
  intros inputs.
  destruct (one_control_per_known_input (initRive None (boot true None)) inputs)
    as (_ & Ht & Hb & Hn & Hc & _); [reflexivity|discriminate| |].
  { repeat constructor; intros H; first [discriminate H|eexists; reflexivity]. }
  cbv zeta in *. rewrite Ht, Hb, Hn, Hc. by vm_compute.
Defined.

(** *** The helpers on a name that is there *)

Lemma alter_is_insert {A} (f : A → A) (k : nat) (x : A) (l : list A) :
  l !! k = Some x → alter f k l = <[k := f x]> l.
Proof.
  intros Hk. apply list_eq. intros j.
  destruct (decide (k = j)) as [<-|Hne].
  - rewrite list_lookup_alter_eq, Hk, list_lookup_insert_eq; [done|].
    by eapply lookup_lt_Some.
  - by rewrite list_lookup_alter_ne, list_lookup_insert_ne.
Qed.

Lemma update_input_written k (f : Input → Input) (i : Input) inputs s :
  stateMachineInputs (vars s) = Some inputs → inputs !! k = Some i →
  written_to k (f i) s (update_input k f s).
Proof.
  intros Hs Hk. unfold written_to, update_input. cbn. rewrite Hs. cbn.
  by rewrite (alter_is_insert f k i).
Qed.

Lemma find_input_first inputName inputs k i :
  find_input inputName inputs = Some (k, i) →
  inputs !! k = Some i ∧ name i = inputName
  ∧ ∀ j i', (j < k)%nat → inputs !! j = Some i' → name i' ≠ inputName.
Proof.
  intros (Hk & Hn & Hfirst)%list_find_Some. split_and!; [done..|].
  intros j i' Hj Hi'. by eapply Hfirst.
Qed.

(** X13. [setBooleanInput] and [setNumberInput] on a name some input has: the
    input written is the first one of that name, whatever its type; it takes
    the value, every other input, the document (the generated controls with
    it) and the console stay as they were; and the name still finds that
    input afterwards. *)
Theorem setters_write_first_match inputName s inputs k i :
  stateMachineInputs (vars s) = Some inputs →
  find_input inputName inputs = Some (k, i) →
  name i = inputName
  ∧ (∀ j i', (j < k)%nat → inputs !! j = Some i' → name i' ≠ inputName)
  ∧ (∀ b : bool, ∃ s',
       setBooleanInput inputName b s = Returned s'
       ∧ written_to k (set_value (VBool b) i) s s')
  ∧ (∀ x : spec_float, ∃ s',
       setNumberInput inputName x s = Returned s'
       ∧ written_to k (set_value (VNum x) i) s s')
  ∧ ∀ v, find_input inputName (<[k := set_value v i]> inputs)
         = Some (k, set_value v i).
Proof.
  intros Hs Hf. destruct (find_input_first _ _ _ _ Hf) as (Hk & Hn & Hfirst).
  split_and!; [done..| | |].
  - intros b. eexists. unfold setBooleanInput, set_input. rewrite Hs, Hf.
    split; [done|]. by eapply update_input_written.
  - intros x. eexists. unfold setNumberInput, set_input. rewrite Hs, Hf.
    split; [done|]. by eapply update_input_written.
  - intros v. apply list_find_Some. split_and!.
    + apply list_lookup_insert_eq. by eapply lookup_lt_Some.
    + done.
    + intros j y Hj Hlt. rewrite list_lookup_insert_ne in Hj by lia.
      by eapply Hfirst.
Qed.

Lemma setters_write_first_match_witness :
  let inputs :=
    [mkInput "open" 59 (VBool false) (Some 0%nat);
     mkInput "speed" 58 (VNum (S754_finite false 3 (-1))) (Some 0%nat);
     mkInput "speed" 59 (VBool false) (Some 0%nat)] in
  let s := setupControls (Some inputs) (initRive None (boot true None)) in
  ∃ s', setNumberInput "speed" (S754_finite false 5 (-1)) s = Returned s'
        ∧ written_to 1
            (mkInput "speed" 58 (VNum (S754_finite false 5 (-1))) (Some 0%nat))
            s s'.
Proof.
  intros inputs s.
  destruct (setters_write_first_match "speed" s inputs 1
              (mkInput "speed" 58 (VNum (S754_finite false 3 (-1)))
                 (Some 0%nat)) eq_refl eq_refl)
    as (_ & _ & _ & Hx & _).
  exact (Hx (S754_finite false 5 (-1))).
Defined.

(** X14. [triggerInput] on a name some input has: [fire] is called once, on the
    first input of that name, whatever its type, and nothing else changes;
    if that input has no [fire] nothing happens at all. *)
Theorem trigger_fires_first_match inputName s inputs k i :
  stateMachineInputs (vars s) = Some inputs →
  find_input inputName inputs = Some (k, i) →
  match fire i with
  | Some n =>
      ∃ s', triggerInput inputName s = Returned s'
            ∧ written_to k (mkInput (name i) (type i) (value i) (Some (S n))) s s'
  | None => triggerInput inputName s = Returned s
  end.
Proof.
  intros Hs Hf. destruct (find_input_first _ _ _ _ Hf) as (Hk & _).
  unfold triggerInput. rewrite Hs, Hf.
  destruct (fire i) as [n|] eqn:Hfire.
  - rewrite decide_True by eauto. eexists. split; [done|].
    replace (mkInput _ _ _ _) with (call_fire i)
      by (unfold call_fire; by rewrite Hfire).
    by eapply update_input_written.
  - rewrite decide_False; [done|]. by intros [? ?].
Qed.

Lemma trigger_fires_first_match_witness :
  let inputs :=
    [mkInput "open" 59 (VBool false) (Some 0%nat);
     mkInput "jump" 56 (VBool false) (Some 4%nat)] in
  let s := setupControls (Some inputs) (initRive None (boot true None)) in
  ∃ s', triggerInput "jump" s = Returned s'
        ∧ written_to 1 (mkInput "jump" 56 (VBool false) (Some 5%nat)) s s'.
Proof.
  intros inputs s.
  exact (trigger_fires_first_match "jump" s inputs 1
           (mkInput "jump" 56 (VBool false) (Some 4%nat)) eq_refl eq_refl).
Defined.

(** *** The generated controls and their inputs *)

Lemma controls_of_lookup tag mk (inputs : list Input) (j : nat) ctl :
  controls_of tag mk (imap pair inputs) !! j = Some ctl →
  ∃ k i, ctl = mk k i ∧ inputs !! k = Some i ∧ type i = tag.
Proof.
  unfold controls_of. rewrite list_lookup_fmap.
  destruct (filter _ _ !! j) as [[k i]|] eqn:Hj; [|done].
  cbn. intros [= <-]. exists k, i.
  apply list_elem_of_lookup_2, list_elem_of_filter in Hj as [Htag Hin].
  apply elem_of_lookup_imap in Hin as (k' & i' & [= -> ->] & Hk).
  done.
Qed.

(** X15. Each generated control acts on the input it was generated for. After
    [setupControls] on a non-empty array of inputs, those of type 58 holding
    numbers, every toggle stands for an
    input of type 59 of which it has the name, is checked as the value of that
    input is truthy, and when switched writes its new state to that input and
    to no other; every trigger button stands for an input of type 56 of which
    it has the name, and a click calls [fire] on that input once. *)
Theorem controls_are_wired s (inputs : list Input) :
  riveInstance (vars s) = true → inputs ≠ [] → Forall holds_number inputs →
  let s' := setupControls (Some inputs) s in
  (∀ j ctl, booleans_container (doc s') !! j = Some ctl →
     ∃ k i,
       inputs !! k = Some i ∧ type i = 59%Z
       ∧ ctl = BooleanToggle (name i) ("bool-" +:+ name i) (truthy (value i)) k
       ∧ ∀ c : bool,
           stateMachineInputs (vars (boolean_change j c s'))
           = Some (<[k := set_value (VBool c) i]> inputs)
           ∧ booleans_container (doc (boolean_change j c s')) !! j
             = Some (BooleanToggle (name i) ("bool-" +:+ name i) c k))
  ∧ (∀ j ctl, triggers_container (doc s') !! j = Some ctl →
       ∃ k i,
         inputs !! k = Some i ∧ type i = 56%Z
         ∧ ctl = TriggerButton (name i) k
         ∧ ∀ n, fire i = Some n →
             ∃ s'', trigger_click j s' = Returned s''
                    ∧ stateMachineInputs (vars s'')
                      = Some (<[k := call_fire i]> inputs)).
Proof.
  intros Hrive Hne _.
  destruct (setupControls_effect s inputs Hrive Hne)
    as (Hv & Ht & Hb & _).
  cbv zeta in *. set (s' := setupControls (Some inputs) s) in *.
  clearbody s'. split.
  - intros j ctl Hj. pose proof Hj as Hj'. rewrite Hb in Hj'.
    apply controls_of_lookup in Hj' as (k & i & -> & Hk & Hty).
    exists k, i. split_and!; [done..|]. intros c.
    unfold boolean_change, boolean_control in *. rewrite Hj.
    unfold update_input. cbn. rewrite Hv. cbn.
    rewrite (alter_is_insert _ k i) by done. split; [done|].
    by rewrite list_lookup_alter_eq, Hj.
  - intros j ctl Hj. pose proof Hj as Hj'. rewrite Ht in Hj'.
    apply controls_of_lookup in Hj' as (k & i & -> & Hk & Hty).
    exists k, i. split_and!; [done..|]. intros n Hfire.
    unfold trigger_click, trigger_control in *. rewrite Hj. cbn.
    rewrite Hv. cbn. rewrite Hk. rewrite decide_True by eauto.
    eexists. split; [done|]. unfold update_input. cbn. rewrite Hv. cbn.
    by rewrite (alter_is_insert _ k i).
Qed.

Lemma controls_are_wired_witness :
  let inputs :=
    [mkInput "jump" 56 (VBool false) (Some 0%nat);
     mkInput "mood" 7 (VBool false) (Some 0%nat);
     mkInput "open" 59 (VBool true) (Some 0%nat)] in
  let s' := setupControls (Some inputs) (initRive None (boot true None)) in
  stateMachineInputs (vars (boolean_change 0 false s'))
  = Some (<[2%nat := mkInput "open" 59 (VBool false) (Some 0%nat)]> inputs).
Proof.
  intros inputs s'.
  destruct (controls_are_wired (initRive None (boot true None)) inputs)
    as [Hb _]; [reflexivity|discriminate| |].
  { repeat constructor; intros H; discriminate H. }
  destruct (Hb 0%nat (BooleanToggle "open" "bool-open" true 2) eq_refl)
    as (k & i & Hk & _ & Hctl & Hc).
  assert (k = 2%nat) as -> by congruence.
  assert (i = mkInput "open" 59 (VBool true) (Some 0%nat)) as ->
    by (vm_compute in Hk; congruence).
  exact (proj1 (Hc false)).
Defined.

End GenericMore.

(** ** The number control of the second revision *)
Module NumberControl.
Import Host Generic HostProofs GenericMore.

Implicit Types (s : State).

(** *** The label and its readout *)



(** *** The sliders built *)





(** *** The claim *)




End NumberControl.
